(** * Cell Builder (web/static/js/cell.js): registry, reconciliation, Cell base class

    A shallow embedding of the [Builder] singleton, of the [Cell] base class
    and of the class [Example] that extends it.

    - DOM nodes and objects are references; [===] on them is equality of
      references.  The objects that [findAndBuild] constructs live in a heap
      (a list indexed by reference), so that [this.element = null] is an
      in-place update seen through every alias of the object.
    - [Builder.availableCells] is an Array used as a table keyed by class
      name.  A lookup [availableCells[name]] sees the classes that [register]
      has stored, the array's [length], and what the array inherits from
      [Array.prototype] and [Object.prototype]; the set of inherited members
      is the platform's, and the development is parametric in it.
    - A [throw] leaves the state as it was at the point of the throw, so the
      computations are functions [State -> completion A * State].
    - [JSON.parse] is the platform's; the development is parametric in it.
    - A class that extends [Cell] may define the hooks [onReload] and
      [onDestroy], and may run code of its own in its constructor after
      [super(...args)], as [Example] does.  A class records whether it defines
      each hook, and whether its constructor code returns or throws; every
      call of a constructor, of [reload], of [destroy] and of a hook is
      appended to a ghost [trace].  Classes that override [reload] or
      [destroy] themselves are not covered. *)

From Stdlib Require Import ZArith Ascii.
From stdpp Require Import base list strings gmap.

Set Warnings "-register-all".
Local Open Scope string_scope.
Local Open Scope list_scope.

(** ** Values *)

(** A DOM node reference. *)
Definition elem := nat.

(** A reference to a Cell object: its index in the heap. *)
Definition loc := nat.

(** The JavaScript values that flow through [element] parameters and fields. *)
Inductive value :=
| VUndefined
| VNull
| VElem (e : elem).

#[global] Instance value_eq_dec : EqDecision value.
Proof. solve_decision. Defined.

(** [a === b] *)
Definition strict_eq (a b : value) : bool :=
  match a, b with
  | VUndefined, VUndefined => true
  | VNull, VNull => true
  | VElem x, VElem y => Nat.eqb x y
  | _, _ => false
  end.

(** ToString of a [string | undefined] value, as applied by property lookup,
    template literals and [JSON.parse]. *)
Definition ToString (v : option string) : string :=
  match v with
  | Some s => s
  | None => "undefined"
  end.

(** The result of [JSON.parse]. *)
Inductive json :=
| JNull
| JBool (b : bool)
| JNum (n : Z)
| JStr (s : string)
| JArr (xs : list json)
| JObj (kvs : list (string * json)).

(** ** An executable parser for a fragment of JSON

    [null], booleans, integer literals, strings without escapes, arrays and
    objects.  It instantiates the [JSON_parse] parameter wherever the model is
    run on a concrete document. *)
Module MiniJSON.

Definition is_ws (c : ascii) : bool :=
  match nat_of_ascii c with
  | 32 | 9 | 10 | 13 => true
  | _ => false
  end.

Fixpoint skip_ws (cs : list ascii) : list ascii :=
  match cs with
  | c :: cs' => if is_ws c then skip_ws cs' else cs
  | [] => []
  end.

Definition digit_of (c : ascii) : option Z :=
  let n := nat_of_ascii c in
  if (48 <=? n)%nat && (n <=? 57)%nat then Some (Z.of_nat (n - 48)) else None.

Fixpoint digits (acc : Z) (cs : list ascii) : Z * list ascii :=
  match cs with
  | c :: cs' =>
      match digit_of c with
      | Some d => digits (10 * acc + d) cs'
      | None => (acc, cs)
      end
  | [] => (acc, [])
  end.

(** An integer literal: one digit at least, no leading zero. *)
Definition number (cs : list ascii) : option (Z * list ascii) :=
  match cs with
  | c :: cs' =>
      match digit_of c with
      | Some d =>
          match cs' with
          | c' :: _ =>
              if (d =? 0)%Z && bool_decide (is_Some (digit_of c')) then None
              else Some (digits d cs')
          | [] => Some (d, [])
          end
      | None => None
      end
  | [] => None
  end.

(** The characters of a string literal after its opening quote. *)
Fixpoint chars (cs : list ascii) : option (string * list ascii) :=
  match cs with
  | c :: cs' =>
      let n := nat_of_ascii c in
      if (n =? 34)%nat then Some (EmptyString, cs')
      else if (n =? 92)%nat || (n <? 32)%nat then None
      else match chars cs' with
           | Some (s, rest) => Some (String c s, rest)
           | None => None
           end
  | [] => None
  end.

Fixpoint expect (kw : list ascii) (cs : list ascii) : option (list ascii) :=
  match kw, cs with
  | [], _ => Some cs
  | k :: kw', c :: cs' => if Ascii.eqb k c then expect kw' cs' else None
  | _ :: _, [] => None
  end.

Definition keyword (kw : string) (v : json) (cs : list ascii)
  : option (json * list ascii) :=
  match expect (String.list_ascii_of_string kw) cs with
  | Some rest => Some (v, rest)
  | None => None
  end.

Fixpoint parse_value (fuel : nat) (cs : list ascii) {struct fuel}
  : option (json * list ascii) :=
  match fuel with
  | O => None
  | S fuel' =>
      match skip_ws cs with
      | [] => None
      | c :: cs' =>
          match nat_of_ascii c with
          | 110 => keyword "null" JNull (c :: cs')
          | 116 => keyword "true" (JBool true) (c :: cs')
          | 102 => keyword "false" (JBool false) (c :: cs')
          | 34 =>
              match chars cs' with
              | Some (s, rest) => Some (JStr s, rest)
              | None => None
              end
          | 45 =>
              match number cs' with
              | Some (n, rest) => Some (JNum (- n), rest)
              | None => None
              end
          | 91 =>
              match skip_ws cs' with
              | c1 :: rest =>
                  if (nat_of_ascii c1 =? 93)%nat then Some (JArr [], rest)
                  else match parse_elements fuel' cs' with
                       | Some (xs, rest') => Some (JArr xs, rest')
                       | None => None
                       end
              | [] => None
              end
          | 123 =>
              match skip_ws cs' with
              | c1 :: rest =>
                  if (nat_of_ascii c1 =? 125)%nat then Some (JObj [], rest)
                  else match parse_members fuel' cs' with
                       | Some (kvs, rest') => Some (JObj kvs, rest')
                       | None => None
                       end
              | [] => None
              end
          | _ =>
              match number (c :: cs') with
              | Some (n, rest) => Some (JNum n, rest)
              | None => None
              end
          end
      end
  end

with parse_elements (fuel : nat) (cs : list ascii) {struct fuel}
  : option (list json * list ascii) :=
  match fuel with
  | O => None
  | S fuel' =>
      match parse_value fuel' cs with
      | Some (v, rest) =>
          match skip_ws rest with
          | c :: rest' =>
              if (nat_of_ascii c =? 93)%nat then Some ([v], rest')
              else if (nat_of_ascii c =? 44)%nat then
                match parse_elements fuel' rest' with
                | Some (vs, rest'') => Some (v :: vs, rest'')
                | None => None
                end
              else None
          | [] => None
          end
      | None => None
      end
  end

with parse_members (fuel : nat) (cs : list ascii) {struct fuel}
  : option (list (string * json) * list ascii) :=
  match fuel with
  | O => None
  | S fuel' =>
      match skip_ws cs with
      | q :: cs1 =>
          if (nat_of_ascii q =? 34)%nat then
            match chars cs1 with
            | Some (k, cs2) =>
                match skip_ws cs2 with
                | colon :: cs3 =>
                    if (nat_of_ascii colon =? 58)%nat then
                      match parse_value fuel' cs3 with
                      | Some (v, rest) =>
                          match skip_ws rest with
                          | c :: rest' =>
                              if (nat_of_ascii c =? 125)%nat
                              then Some ([(k, v)], rest')
                              else if (nat_of_ascii c =? 44)%nat then
                                match parse_members fuel' rest' with
                                | Some (kvs, rest'') =>
                                    Some ((k, v) :: kvs, rest'')
                                | None => None
                                end
                              else None
                          | [] => None
                          end
                      | None => None
                      end
                    else None
                | [] => None
                end
            | None => None
            end
          else None
      | [] => None
      end
  end.

(** The whole text must be one value, surrounded by white space only. *)
Definition parse (s : string) : option json :=
  let cs := String.list_ascii_of_string s in
  match parse_value (2 * length cs + 2) cs with
  | Some (v, rest) =>
      match skip_ws rest with
      | [] => Some v
      | _ :: _ => None
      end
  | None => None
  end.

End MiniJSON.

(** The double-quote character, as a one-character string. *)
Definition dquote : string := String "034"%char EmptyString.

(** The text [{"n":k}] of a one-member object. *)
Definition obj_n (k : string) : string :=
  "{" +:+ dquote +:+ "n" +:+ dquote +:+ ":" +:+ k +:+ "}".


(** ** Data model *)

(** A snapshot of the document tree: its nodes in document order, the two
    data attributes the Builder and the Cell constructor read, and
    [element.querySelector(selector)] ([None] for [null]). *)
Record Document := mkDocument {
  nodes : list elem;
  dataset_cell : elem -> option string;
  dataset_cellParams : elem -> option string;
  node_querySelector : elem -> string -> option elem;
}.

(** [document.querySelectorAll('[data-cell]')] *)
Definition querySelectorAll_data_cell (d : Document) : list elem :=
  List.filter (fun e => bool_decide (is_Some (dataset_cell d e))) (nodes d).

Inductive exn :=
| Error (message : string)
| SyntaxError
| ReferenceError (ident : string)
| TypeError
| RangeError.

(** A class that can be registered with the Builder: [Cell] or a class that
    extends it. *)
Record CellClass := mkClass {
  cname : string;      (* the class's [name] property *)
  cid : nat;           (* identity of the constructor function *)
  onReload : bool;     (* the prototype defines [onReload] *)
  onDestroy : bool;    (* the prototype defines [onDestroy] *)
  (* the constructor's code after [super(...args)], run on the element and on
     the parsed [params]: [None] when it returns, the exception when it throws *)
  after_super : Document -> elem -> json -> option exn;
}.

(** The constructor of [Cell] itself, and of a class that adds no constructor. *)
Definition no_constructor : Document -> elem -> json -> option exn :=
  fun _ _ _ => None.

(** The fields the [Cell] constructor sets on [this]. *)
Record Cell := mkCell {
  element : value;
  name : string;
  params : json;
  constructor : CellClass;
}.

(** What a reference can point to: a Cell, or the Array that
    [new Array(element)] returns. *)
Inductive object :=
| OCell (c : Cell)
| OArray (items : list value).

(** Calls observed during a run, oldest first. *)
Inductive event :=
| EvNew (this : loc) (c : CellClass) (arg : value)       (* new c(arg) returned this *)
| EvNewArray (this : loc) (arg : value)                  (* new Array(arg) returned this *)
| EvReload (this : loc) (arg : value)                    (* this.reload(arg) *)
| EvOnReload (this : loc) (arg : value)                  (* this.onReload(arg) *)
| EvDestroy (this : loc) (arg : value)                   (* this.destroy(arg) *)
| EvOnDestroy (this : loc) (this_element arg : value).   (* this.onDestroy(arg),
                                          with the value of this.element it sees *)

(** The Builder singleton's two fields, the heap of objects, the trace.
    [availableCells] holds the properties that [register] has added to the
    array. *)
Record State := mkState {
  activeCells : list loc;
  availableCells : gmap string CellClass;
  heap : list object;
  trace : list event;
}.

(** Module load: both arrays are empty. *)
Definition initial : State :=
  {| activeCells := []; availableCells := ∅; heap := []; trace := [] |}.

(** ** The array [availableCells] as a table *)

(** What the array inherits under a name: the [Array] constructor (under
    [constructor]), or another member of [Array.prototype] or
    [Object.prototype]; each of those is truthy and is not a constructor. *)
Inductive inherited :=
| IArray
| IBuiltin.

(** The value of [availableCells[name]]. *)
Inductive property :=
| PClass (c : CellClass)    (* a class that [register] has stored *)
| PArray                    (* the [Array] constructor *)
| PBuiltin                  (* another inherited member *)
| PNumber (n : N)           (* the array's [length] *)
| PUndefined.

(** [!!p] *)
Definition truthy (p : property) : bool :=
  match p with
  | PUndefined => false
  | PNumber n => negb (N.eqb n 0)
  | PClass _ | PArray | PBuiltin => true
  end.

Definition decimal_digit (c : ascii) : option N :=
  let n := nat_of_ascii c in
  if (48 <=? n)%nat && (n <=? 57)%nat then Some (N.of_nat (n - 48)) else None.

Fixpoint decimal (acc : N) (s : string) : option N :=
  match s with
  | EmptyString => Some acc
  | String c s' =>
      match decimal_digit c with
      | Some k => decimal (10 * acc + k) s'
      | None => None
      end
  end.

(** The array index a property name denotes: the name is the canonical
    decimal text of an integer below [2^32 - 1]. *)
Definition array_index (s : string) : option N :=
  match s with
  | EmptyString => None
  | String c s' =>
      if Ascii.eqb c "0"%char && negb (String.eqb s' EmptyString) then None
      else match decimal 0 s with
           | Some n => if (n <? 4294967295)%N then Some n else None
           | None => None
           end
  end.

(** [availableCells.length]: one more than the largest index that is set. *)
Definition array_length (t : gmap string CellClass) : N :=
  map_fold (fun k _ n => match array_index k with
                         | Some i => N.max n (N.succ i)
                         | None => n
                         end) 0%N t.

(** ** Computations that may throw *)

Inductive completion (A : Type) :=
| Normal (a : A)
| Throw (x : exn).
Arguments Normal {A} a.
Arguments Throw {A} x.

Definition M (A : Type) : Type := State -> completion A * State.

Definition ret {A} (a : A) : M A := fun st => (Normal a, st).

Definition throw {A} (x : exn) : M A := fun st => (Throw x, st).

Definition bind {A B} (m : M A) (k : A -> M B) : M B := fun st =>
  match m st with
  | (Normal a, st') => k a st'
  | (Throw x, st') => (Throw x, st')
  end.

Notation "'let!' x ':=' m 'in' k" := (bind m (fun x => k))
  (at level 10, x name, m at level 100, k at level 200).
Notation "m ';;' k" := (bind m (fun _ => k))
  (at level 100, k at level 200, right associativity).

Definition get : M State := fun st => (Normal st, st).

Definition log (ev : event) : M unit := fun st =>
  (Normal tt, {| activeCells := activeCells st; availableCells := availableCells st;
                 heap := heap st; trace := trace st ++ [ev] |}).

Definition set_heap (h : list object) : M unit := fun st =>
  (Normal tt, {| activeCells := activeCells st; availableCells := availableCells st;
                 heap := h; trace := trace st |}).

Definition set_activeCells (cells : list loc) : M unit := fun st =>
  (Normal tt, {| activeCells := cells; availableCells := availableCells st;
                 heap := heap st; trace := trace st |}).

Definition set_availableCells (t : gmap string CellClass) : M unit := fun st =>
  (Normal tt, {| activeCells := activeCells st; availableCells := t;
                 heap := heap st; trace := trace st |}).

(** Allocation of a new object: the next free reference. *)
Definition alloc (o : object) : M loc :=
  let! st := get in
  set_heap (heap st ++ [o]);;
  ret (length (heap st)).

(** [cell.element]; an Array has no such property. *)
Definition element_of (h : list object) (cell : loc) : value :=
  match h !! cell with
  | Some (OCell c) => element c
  | Some (OArray _) | None => VUndefined
  end.

(** The reference points to a Cell. *)
Definition is_cell (h : list object) (cell : loc) : bool :=
  match h !! cell with
  | Some (OCell _) => true
  | Some (OArray _) | None => false
  end.

(** [this.element = v] *)
Definition with_element (v : value) (c : Cell) : Cell :=
  {| element := v; name := name c; params := params c; constructor := constructor c |}.

Definition assign_element (this : loc) (v : value) : M unit :=
  let! st := get in
  match heap st !! this with
  | Some (OCell c) => set_heap (<[this := OCell (with_element v c)]> (heap st))
  | Some (OArray _) | None => ret tt
  end.

(** Whether the object's prototype chain has the hook. *)
Definition has_hook (hook : CellClass -> bool) (h : list object) (this : loc) : bool :=
  match h !! this with
  | Some (OCell c) => hook (constructor c)
  | Some (OArray _) | None => false
  end.

Fixpoint mapM {A B} (f : A -> M B) (xs : list A) : M (list B) :=
  match xs with
  | [] => ret []
  | x :: xs' =>
      let! y := f x in
      let! ys := mapM f xs' in
      ret (y :: ys)
  end.

Fixpoint filterM {A} (f : A -> M bool) (xs : list A) : M (list A) :=
  match xs with
  | [] => ret []
  | x :: xs' =>
      let! keep := f x in
      let! ys := filterM f xs' in
      ret (if keep then x :: ys else ys)
  end.

(** ** The program *)

Section Program.

(** [JSON.parse]: [None] when it throws a SyntaxError. *)
Variable JSON_parse : string -> option json.

(** What an Array inherits under a name, [None] when it inherits nothing. *)
Variable prototype_chain : string -> option inherited.

(** [availableCells[name]]: own properties first, then the prototype chain. *)
Definition lookup_property (t : gmap string CellClass) (name : string) : property :=
  if String.eqb name "length" then PNumber (array_length t)
  else match t !! name with
       | Some c => PClass c
       | None =>
           match prototype_chain name with
           | Some IArray => PArray
           | Some IBuiltin => PBuiltin
           | None => PUndefined
           end
       end.

(** *** class Cell *)

(** [new c(element)] for a class [c]: Cell's constructor, then the code that
    [c] adds after [super(...args)].  An object whose construction throws is
    never seen again, so it is only allocated once the constructor returns. *)
Definition Cell_new (d : Document) (c : CellClass) (element : elem) : M loc :=
  match JSON_parse (ToString (dataset_cellParams d element)) with
  | None => throw SyntaxError
  | Some p =>
      match after_super c d element p with
      | Some x => throw x
      | None =>
          let! this := alloc (OCell {| element := VElem element; name := cname c;
                                       params := p; constructor := c |}) in
          log (EvNew this c (VElem element));;
          ret this
      end
  end.

(** [destroy(element)] *)
Definition Cell_destroy (this : loc) (element : value) : M value :=
  log (EvDestroy this element);;
  assign_element this VNull;;
  let! st := get in
  (if has_hook onDestroy (heap st) this
   then log (EvOnDestroy this (element_of (heap st) this) element)
   else ret tt);;
  ret element.

(** [reload(element)] *)
Definition Cell_reload (this : loc) (element : value) : M value :=
  log (EvReload this element);;
  let! st := get in
  (if has_hook onReload (heap st) this
   then log (EvOnReload this element)
   else ret tt);;
  ret element.

(** The call [cell.destroy(arg)] on an object of the heap: a Cell has the
    method, an Array has not. *)
Definition call_destroy (cell : loc) (arg : value) : M value :=
  let! st := get in
  if is_cell (heap st) cell then Cell_destroy cell arg else throw TypeError.

(** The call [cell.reload(arg)] on an object of the heap. *)
Definition call_reload (cell : loc) (arg : value) : M value :=
  let! st := get in
  if is_cell (heap st) cell then Cell_reload cell arg else throw TypeError.

(** *** Builder *)

(** [register(cell)].  The assignment [this.availableCells[cellName] = cell]
    adds a property to the array, except under the name [length]: a class is
    no array length, and the assignment throws a RangeError. *)
Definition register (cell : CellClass) : M unit :=
  let cellName := cname cell in
  let! st := get in
  if truthy (lookup_property (availableCells st) cellName) then ret tt
  else if String.eqb cellName "length" then throw RangeError
  else set_availableCells (<[cellName := cell]> (availableCells st)).

(** The expression statement that is the whole body of [findByElement]:
    [(cells || this.activeCells).find(cell => cell.element === element)]. *)
Definition find_expression (st : State) (element : value) (cells : list loc)
  : option loc :=
  List.find (fun cell => strict_eq (element_of (heap st) cell) element) cells.

(** [findByElement(element, cells = this.activeCells)]; [cells = None] is a
    call without the second argument.  The body has no [return]: the value
    of the call is [undefined], here [None]. *)
Definition findByElement (st : State) (element : value) (cells : option (list loc))
  : option loc :=
  let cells := default (activeCells st) cells in
  let _ := find_expression st element cells in
  None.

(** [new (cellConstructor)(element)] for a truthy [cellConstructor]. *)
Definition construct (d : Document) (cellConstructor : property) (element : elem)
  : M loc :=
  match cellConstructor with
  | PClass c => Cell_new d c element
  | PArray =>
      let! this := alloc (OArray [VElem element]) in
      log (EvNewArray this (VElem element));;
      ret this
  | PBuiltin | PNumber _ | PUndefined => throw TypeError
  end.

(** The callback [findAndBuild] maps over the marker elements. *)
Definition build (d : Document) (element : elem) : M loc :=
  let cellName := dataset_cell d element in
  let! st := get in
  let cellConstructor := lookup_property (availableCells st) (ToString cellName) in
  let foundCell := findByElement st (VElem element) None in
  if negb (truthy cellConstructor)
  then throw (Error ("Cell with name " +:+ ToString cellName +:+ " not found"))
  else match foundCell with
       | Some foundCell =>
           call_reload foundCell (VElem element);;
           (* [return cell]: no binding of that name is in scope *)
           throw (ReferenceError "cell")
       | None => construct d cellConstructor element
       end.

(** [findAndBuild()] *)
Definition findAndBuild (d : Document) : M (list loc) :=
  mapM (build d) (querySelectorAll_data_cell d).

(** The callback [destroyOrphans] filters the active cells with. *)
Definition orphan (found : list loc) (cell : loc) : M bool :=
  let! st := get in
  match findByElement st (element_of (heap st) cell) (Some found) with
  | None => call_destroy cell VUndefined;; ret false
  | Some _ => ret true
  end.

(** [destroyOrphans(found)] *)
Definition destroyOrphans (found : list loc) : M (list loc) :=
  let! st := get in
  filterM (orphan found) (activeCells st).

(** [reload()] *)
Definition reload (d : Document) : M unit :=
  let! found := findAndBuild d in
  destroyOrphans found;;
  set_activeCells found.

(** [initialize()] *)
Definition initialize (d : Document) : M unit :=
  reload d.

(** *** The same pass, read off as data

    These describe, without the monad, what one pass does; the lemmas
    [build_eq], [findAndBuild_eq], [destroyOrphans_eq] and [reload_eq] below
    prove that the program computes exactly this. *)

(** What the callback of [findAndBuild] does with one marker element: the
    exception it throws, or the object it constructs. *)
Definition outcome (reg : gmap string CellClass) (d : Document) (e : elem)
  : exn + object :=
  match lookup_property reg (ToString (dataset_cell d e)) with
  | PClass c =>
      match JSON_parse (ToString (dataset_cellParams d e)) with
      | None => inl SyntaxError
      | Some p =>
          match after_super c d e p with
          | Some x => inl x
          | None => inr (OCell {| element := VElem e; name := cname c;
                                  params := p; constructor := c |})
          end
      end
  | PArray => inr (OArray [VElem e])
  | PBuiltin => inl TypeError
  | PNumber n =>
      if N.eqb n 0
      then inl (Error ("Cell with name " +:+ ToString (dataset_cell d e) +:+ " not found"))
      else inl TypeError
  | PUndefined =>
      inl (Error ("Cell with name " +:+ ToString (dataset_cell d e) +:+ " not found"))
  end.

(** The objects constructed for a list of marker elements, up to the first
    exception. *)
Fixpoint outcomes (reg : gmap string CellClass) (d : Document) (es : list elem)
  : list object * option exn :=
  match es with
  | [] => ([], None)
  | e :: es' =>
      match outcome reg d e with
      | inl x => ([], Some x)
      | inr o => let (os, r) := outcomes reg d es' in (o :: os, r)
      end
  end.

End Program.

(** The event of the construction that returned the object. *)
Definition construction (this : loc) (o : object) : event :=
  match o with
  | OCell c => EvNew this (constructor c) (element c)
  | OArray items => EvNewArray this (default VUndefined (head items))
  end.

(** The construction events of objects allocated from [base] on. *)
Fixpoint news (base : loc) (os : list object) : list event :=
  match os with
  | [] => []
  | o :: os' => construction base o :: news (S base) os'
  end.

(** The heap after [cell.element = null]. *)
Definition cleared (h : list object) (cell : loc) : list object :=
  match h !! cell with
  | Some (OCell c) => <[cell := OCell (with_element VNull c)]> h
  | Some (OArray _) | None => h
  end.

(** The entries of [cells] before the first one that is not a Cell: those on
    which [destroyOrphans] gets to call [destroy]. *)
Fixpoint cells_before (h : list object) (cells : list loc) : list loc :=
  match cells with
  | [] => []
  | l :: ls => if is_cell h l then l :: cells_before h ls else []
  end.

(** The events of one call [cell.destroy(arg)]. *)
Definition destroy_events (h : list object) (cell : loc) (arg : value) : list event :=
  EvDestroy cell arg ::
  (if has_hook onDestroy h cell then [EvOnDestroy cell VNull arg] else []).

(** The events of one call [cell.reload(arg)]. *)
Definition reload_events (h : list object) (cell : loc) (arg : value) : list event :=
  EvReload cell arg ::
  (if has_hook onReload h cell then [EvOnReload cell arg] else []).

(** ** States of a running page *)

(** One call of a public operation of the Builder. *)
Inductive step (JSON_parse : string -> option json)
    (prototype_chain : string -> option inherited) (st : State) : State -> Prop :=
| step_register (cell : CellClass) :
    step JSON_parse prototype_chain st (register prototype_chain cell st).2
| step_reload (d : Document) :
    step JSON_parse prototype_chain st (reload JSON_parse prototype_chain d st).2
| step_initialize (d : Document) :
    step JSON_parse prototype_chain st (initialize JSON_parse prototype_chain d st).2.

(** The states the Builder can be in: any number of calls after module load. *)
Definition reachable (JSON_parse : string -> option json)
    (prototype_chain : string -> option inherited) (st : State) : Prop :=
  rtc (step JSON_parse prototype_chain) initial st.

(** Every entry of [activeCells] is an object of the heap, and is listed once. *)
Definition wf (st : State) : Prop :=
  NoDup (activeCells st) /\ Forall (fun l => l < length (heap st)) (activeCells st).

(** The active cells bound to the element [e]. *)
Definition owners (st : State) (e : elem) : list loc :=
  List.filter (fun l => strict_eq (element_of (heap st) l) (VElem e)) (activeCells st).

(** A call of a constructor. *)
Definition is_EvNew (ev : event) : bool :=
  match ev with EvNew _ _ _ | EvNewArray _ _ => true | _ => false end.

Definition is_EvReload (ev : event) : bool :=
  match ev with EvReload _ _ => true | _ => false end.

(** A call of [destroy] on the object [l]. *)
Definition is_EvDestroy_of (l : loc) (ev : event) : bool :=
  match ev with EvDestroy l' _ => Nat.eqb l' l | _ => false end.

(** A call of [reload] on the object [l]. *)
Definition is_EvReload_of (l : loc) (ev : event) : bool :=
  match ev with EvReload l' _ => Nat.eqb l' l | _ => false end.

Definition is_EvDestroy (ev : event) : bool :=
  match ev with EvDestroy _ _ => true | _ => false end.

(** ** Unknown types and configurations *)


(** The element's [data-cell] names no registered class. *)
Definition unknown_type (st : State) (d : Document) (e : elem) : Prop :=
  availableCells st !! ToString (dataset_cell d e) = None.





(** The object is the one built for the element [e]: a Cell whose element is
    [e], or the Array that holds [e]. *)
Definition built_for (h : list object) (l : loc) (e : elem) : Prop :=
  match h !! l with
  | Some (OCell c) => element c = VElem e
  | Some (OArray items) => items = [VElem e]
  | None => False
  end.

(** [o.element] for an object [o]. *)
Definition object_element (o : object) : value :=
  match o with
  | OCell c => element c
  | OArray _ => VUndefined
  end.

(** The element's [data-cell] names a registered class. *)
Definition names_a_class (prototype_chain : string -> option inherited)
    (st : State) (d : Document) (e : elem) : Prop :=
  exists c, lookup_property prototype_chain (availableCells st)
              (ToString (dataset_cell d e)) = PClass c.

(** Every class is stored under its own name. *)
Definition keys_are_names (st : State) : Prop :=
  forall n c, availableCells st !! n = Some c -> cname c = n.

(** [destroy] has been called on no object that is yet to be allocated. *)
Definition no_destroy_ahead (st : State) : Prop :=
  forall l, length (heap st) <= l ->
            List.filter (is_EvDestroy_of l) (trace st) = [].

(** Events that are calls of a constructor. *)
Definition constructions (tr : list event) : list event := List.filter is_EvNew tr.

(** Events that are calls of [destroy]. *)
Definition destructions (tr : list event) : list event := List.filter is_EvDestroy tr.

(** ** class Example extends Cell *)

(** [v[key]] for an object parsed from JSON: the last member of that name. *)
Fixpoint member (key : string) (kvs : list (string * json)) : option json :=
  match kvs with
  | [] => None
  | (k, v) :: kvs' =>
      match member key kvs' with
      | Some v' => Some v'
      | None => if String.eqb k key then Some v else None
      end
  end.

(** Whether converting a parsed value to a string, as a template literal
    does, throws a TypeError: an object with a member [toString] has no
    callable conversion, and an array converts its elements. *)
Fixpoint ToString_throws (v : json) : bool :=
  match v with
  | JObj kvs =>
      match member "toString" kvs with
      | Some _ => true
      | None => false
      end
  | JArr xs =>
      (fix any (xs : list json) : bool :=
         match xs with
         | [] => false
         | x :: xs' => ToString_throws x || any xs'
         end) xs
  | JNull | JBool _ | JNum _ | JStr _ => false
  end.

(** The constructor of [Example] after [super(...args)]:
    [this.query(this.className('name')).innerHTML = `Not ${this.params.name}`].
    It throws a TypeError when the element has no descendant
    [.Example__name], when [params] is [null], and when [params.name] has no
    string conversion; the text it writes is not part of the state. *)
Definition Example_constructor (d : Document) (element : elem) (params : json)
  : option exn :=
  match node_querySelector d element ".Example__name" with
  | None => Some TypeError
  | Some _ =>
      match params with
      | JNull => Some TypeError
      | JObj kvs =>
          match member "name" kvs with
          | Some v => if ToString_throws v then Some TypeError else None
          | None => None
          end
      | JBool _ | JNum _ | JStr _ | JArr _ => None
      end
  end.

Definition Example : CellClass :=
  {| cname := "Example"; cid := 0; onReload := false; onDestroy := false;
     after_super := Example_constructor |}.

(** ** The rest of class Cell *)

(** [className(child)]; [child = None] is a call without the argument.  An
    absent and an empty [child] are both falsy. *)
Definition Cell_className (this : Cell) (child : option string) : string :=
  let name := name this in
  match child with
  | None | Some EmptyString => name
  | Some child => "." +:+ name +:+ "__" +:+ child
  end.

(** A call on the DOM that either returns or throws. *)
Inductive dom_completion (A : Type) :=
| Returned (a : A)
| Thrown (x : exn).
Arguments Returned {A} a.
Arguments Thrown {A} x.

Section Queries.

(** [element.querySelector(selector)], [None] for [null], and
    [element.querySelectorAll(selector)]: the platform's. *)
Variable querySelector : elem -> string -> option elem.
Variable querySelectorAll : elem -> string -> list elem.

(** [query(selector)]: reading a property of [null] or [undefined] throws a
    TypeError. *)
Definition Cell_query (h : list object) (this : loc) (selector : string)
  : dom_completion (option elem) :=
  match element_of h this with
  | VElem element => Returned (querySelector element selector)
  | VNull | VUndefined => Thrown TypeError
  end.

(** [queryAll(selector)] *)
Definition Cell_queryAll (h : list object) (this : loc) (selector : string)
  : dom_completion (list elem) :=
  match element_of h this with
  | VElem element => Returned (querySelectorAll element selector)
  | VNull | VUndefined => Thrown TypeError
  end.

End Queries.

(** ** The server side: Phoenix.Cell *)

Module Phoenix_Cell.

(** [String.split(s, ".")]: the pieces between the dots, empty ones kept. *)
Fixpoint split (s : string) : list string :=
  match s with
  | EmptyString => [EmptyString]
  | String c s' =>
      if Ascii.eqb c "."%char then EmptyString :: split s'
      else match split s' with
           | piece :: pieces => String c piece :: pieces
           | [] => [String c EmptyString]
           end
  end.

(** [name/0] of a module whose [Atom.to_string(__MODULE__)] is [module]:
    [module |> String.split(".") |> List.last].  [List.last] is [nil] on the
    empty list only, which [split] never returns. *)
Definition name (module : string) : string :=
  List.last (split module) EmptyString.

(** [class/1]: [name <> "__" <> class_name] *)
Definition class (module class_name : string) : string :=
  name module +:+ "__" +:+ class_name.

End Phoenix_Cell.

(** No character of the string is a dot. *)
Fixpoint dot_free (s : string) : bool :=
  match s with
  | EmptyString => true
  | String c s' => negb (Ascii.eqb c "."%char) && dot_free s'
  end.

(** ** Sample pages *)

Module Sample.

Definition Foo : CellClass :=
  {| cname := "Foo"; cid := 1; onReload := true; onDestroy := true;
     after_super := no_constructor |}.

Definition Bar : CellClass :=
  {| cname := "Bar"; cid := 2; onReload := false; onDestroy := false;
     after_super := no_constructor |}.

(** Another class that is also called [Foo]. *)
Definition Foo2 : CellClass :=
  {| cname := "Foo"; cid := 3; onReload := false; onDestroy := false;
     after_super := no_constructor |}.

(** [class map extends Cell {}] and another class of that name. *)
Definition map1 : CellClass :=
  {| cname := "map"; cid := 4; onReload := false; onDestroy := false;
     after_super := no_constructor |}.

Definition map2 : CellClass :=
  {| cname := "map"; cid := 5; onReload := false; onDestroy := false;
     after_super := no_constructor |}.

(** [class length extends Cell {}] *)
Definition length1 : CellClass :=
  {| cname := "length"; cid := 6; onReload := false; onDestroy := false;
     after_super := no_constructor |}.

(** The names an Array inherits from [Array.prototype] and
    [Object.prototype] in a current engine. *)
Definition inherited_names : list string :=
  ["at"; "concat"; "copyWithin"; "entries"; "every"; "fill"; "filter"; "find";
   "findIndex"; "findLast"; "findLastIndex"; "flat"; "flatMap"; "forEach";
   "includes"; "indexOf"; "join"; "keys"; "lastIndexOf"; "map"; "pop"; "push";
   "reduce"; "reduceRight"; "reverse"; "shift"; "slice"; "some"; "sort";
   "splice"; "toLocaleString"; "toReversed"; "toSorted"; "toSpliced";
   "toString"; "unshift"; "values"; "with";
   "hasOwnProperty"; "isPrototypeOf"; "propertyIsEnumerable"; "valueOf";
   "__proto__"; "__defineGetter__"; "__defineSetter__"; "__lookupGetter__";
   "__lookupSetter__"].

Definition prototype_chain (name : string) : option inherited :=
  if String.eqb name "constructor" then Some IArray
  else if existsb (String.eqb name) inherited_names then Some IBuiltin
  else None.

(** E1 has one descendant, node 11, that matches [.Foo__name], and E8 one,
    node 18, that matches [.Example__name]; nothing else matches anything. *)
Definition querySelector (e : elem) (selector : string) : option elem :=
  if Nat.eqb e 1 && String.eqb selector ".Foo__name" then Some 11
  else if Nat.eqb e 8 && String.eqb selector ".Example__name" then Some 18
  else None.

Definition querySelectorAll (e : elem) (selector : string) : list elem :=
  if Nat.eqb e 1 && String.eqb selector ".Foo__name" then [11]
  else if Nat.eqb e 8 && String.eqb selector ".Example__name" then [18]
  else [].

(** A node with its [data-cell] and [data-cell-params] attributes. *)
Definition node : Type := elem * (option string * option string).

Definition attributes (l : list node) (e : elem) : option string * option string :=
  match List.find (fun n => Nat.eqb n.1 e) l with
  | Some n => n.2
  | None => (None, None)
  end.

Definition page (l : list node) : Document :=
  {| nodes := fst <$> l;
     dataset_cell := fun e => (attributes l e).1;
     dataset_cellParams := fun e => (attributes l e).2;
     node_querySelector := querySelector |}.

(** E1 is a [Foo] and E2 a [Bar]; node 9 carries no marker. *)
Definition page1 : Document :=
  page [(1, (Some "Foo", Some (obj_n "1")));
        (9, (None, None));
        (2, (Some "Bar", Some (obj_n "2")))].

(** E1 is gone, E2 is still there, E3 is new. *)
Definition page2 : Document :=
  page [(2, (Some "Bar", Some (obj_n "2")));
        (3, (Some "Foo", Some (obj_n "3")))].

(** E4 names a class that nobody registered. *)
Definition page_unknown : Document :=
  page [(2, (Some "Bar", Some (obj_n "2")));
        (4, (Some "Baz", Some (obj_n "4")))].

(** E5 has a configuration that does not parse, before the unknown E4. *)
Definition page_malformed : Document :=
  page [(5, (Some "Foo", Some "{"));
        (4, (Some "Baz", Some (obj_n "4")))].

(** E6 has no configuration attribute. *)
Definition page_missing : Document :=
  page [(2, (Some "Bar", Some (obj_n "2")));
        (6, (Some "Foo", None))].

(** E1 is a [Foo]; E7 says [data-cell="constructor"], a name under which
    nothing is registered, and has no configuration attribute. *)
Definition page_constructor : Document :=
  page [(1, (Some "Foo", Some (obj_n "1")));
        (7, (Some "constructor", None))].

(** E8 and E10 are [Example]s; only E8 has the descendant that the
    constructor of [Example] writes to. *)
Definition page_example : Document :=
  page [(8, (Some "Example", Some (obj_n "8")));
        (10, (Some "Example", Some (obj_n "10")))].

(** The object [new Foo(E1)] builds. *)
Definition foo1 : Cell :=
  {| element := VElem 1; name := "Foo"; params := JObj [("n", JNum 1)];
     constructor := Foo |}.

(** [Builder.register(Foo); Builder.register(Bar)] *)
Definition registered : State :=
  (register prototype_chain Bar (register prototype_chain Foo initial).2).2.

(** ... [Builder.initialize()] on [page1] *)
Definition loaded : State :=
  (initialize MiniJSON.parse prototype_chain page1 registered).2.

(** ... [Builder.reload()] once the page has become [page2] *)
Definition reloaded : State :=
  (reload MiniJSON.parse prototype_chain page2 loaded).2.

(** ... [Builder.reload()] again, on the same [page2] *)
Definition reloaded_twice : State :=
  (reload MiniJSON.parse prototype_chain page2 reloaded).2.

(** [register(Foo); register(Bar); initialize()] on [page_constructor] *)
Definition loaded_constructor : State :=
  (initialize MiniJSON.parse prototype_chain page_constructor registered).2.

(** ... [Builder.reload()] on the unchanged [page_constructor] *)
Definition reloaded_constructor : State :=
  (reload MiniJSON.parse prototype_chain page_constructor loaded_constructor).2.

End Sample.

(** ** The JSON fragment parser on sample texts *)

Example parse_obj_n :
  MiniJSON.parse (obj_n "1") = Some (JObj [("n", JNum 1)]).
Proof. vm_compute. reflexivity. Qed.

Example parse_nested :
  MiniJSON.parse ("[1, " +:+ obj_n "[true,null]" +:+ " , -20 ]")
  = Some (JArr [JNum 1; JObj [("n", JArr [JBool true; JNull])]; JNum (-20)]).
Proof. vm_compute. reflexivity. Qed.

Example parse_malformed :
  MiniJSON.parse "{" = None /\ MiniJSON.parse "undefined" = None
  /\ MiniJSON.parse "01" = None /\ MiniJSON.parse "[1,]" = None
  /\ MiniJSON.parse EmptyString = None /\ MiniJSON.parse "1 2" = None.
Proof. vm_compute. repeat split. Qed.

(** ** The heap under [this.element = null] *)

Lemma cleared_length h l : length (cleared h l) = length h.
Proof.
  unfold cleared. destruct (h !! l) as [[c|items]|]; [apply length_insert | done..].
Qed.

Lemma cleared_lookup_ne h l l' : l ≠ l' -> cleared h l !! l' = h !! l'.
Proof.
  intros Hne. unfold cleared.
  destruct (h !! l) as [[c|items]|]; [by apply list_lookup_insert_ne | done..].
Qed.

Lemma cleared_lookup_eq h l c :
  h !! l = Some (OCell c) -> cleared h l !! l = Some (OCell (with_element VNull c)).
Proof.
  intros Hl. unfold cleared. rewrite Hl.
  apply list_lookup_insert_eq. by eapply lookup_lt_Some.
Qed.

Lemma cleared_not_cell h l : is_cell h l = false -> cleared h l = h.
Proof. unfold is_cell, cleared. by destruct (h !! l) as [[c|items]|]. Qed.

Lemma is_cell_lookup h l : is_cell h l = true -> exists c, h !! l = Some (OCell c).
Proof. unfold is_cell. destruct (h !! l) as [[c|items]|]; [by eexists | done..]. Qed.

Lemma is_cell_lt h l : is_cell h l = true -> l < length h.
Proof. intros [c Hc]%is_cell_lookup. by eapply lookup_lt_Some. Qed.

Lemma has_hook_cleared hook h l l' :
  has_hook hook (cleared h l) l' = has_hook hook h l'.
Proof.
  unfold has_hook. destruct (decide (l = l')) as [->|Hne].
  - destruct (is_cell h l') eqn:E.
    + destruct (is_cell_lookup _ _ E) as [c Hc].
      by rewrite (cleared_lookup_eq _ _ _ Hc), Hc.
    + by rewrite (cleared_not_cell _ _ E).
  - by rewrite cleared_lookup_ne.
Qed.

Lemma is_cell_cleared h l l' : is_cell (cleared h l) l' = is_cell h l'.
Proof.
  destruct (decide (l = l')) as [->|Hne].
  - destruct (is_cell h l') eqn:E.
    + destruct (is_cell_lookup _ _ E) as [c Hc].
      unfold is_cell. by rewrite (cleared_lookup_eq _ _ _ Hc).
    + by rewrite (cleared_not_cell _ _ E).
  - unfold is_cell. by rewrite cleared_lookup_ne.
Qed.

Lemma forallb_is_cell_cleared h l cells :
  forallb (is_cell (cleared h l)) cells = forallb (is_cell h) cells.
Proof.
  induction cells as [|l0 ls IH]; simpl; [done|]. by rewrite is_cell_cleared, IH.
Qed.

Lemma cells_before_cleared h l cells :
  cells_before (cleared h l) cells = cells_before h cells.
Proof.
  induction cells as [|l0 ls IH]; simpl; [done|]. by rewrite is_cell_cleared, IH.
Qed.

Lemma foldl_cleared_length ls h : length (foldl cleared h ls) = length h.
Proof.
  revert h. induction ls as [|l ls IH]; intros h; simpl; [done|].
  by rewrite IH, cleared_length.
Qed.

Lemma foldl_cleared_lookup_notin ls h l' :
  l' ∉ ls -> foldl cleared h ls !! l' = h !! l'.
Proof.
  revert h. induction ls as [|l ls IH]; intros h Hn; simpl; [done|].
  apply not_elem_of_cons in Hn as [Hne Hn].
  rewrite IH by done. by apply cleared_lookup_ne.
Qed.

Lemma element_of_cleared h l c :
  h !! l = Some (OCell c) -> element_of (cleared h l) l = VNull.
Proof. intros E. unfold element_of. by rewrite (cleared_lookup_eq _ _ _ E). Qed.

Lemma element_of_foldl_cleared_in ls h l :
  l ∈ ls -> is_cell h l = true -> element_of (foldl cleared h ls) l = VNull.
Proof.
  revert h. induction ls as [|l0 ls IH]; intros h Hin Hc; [by apply elem_of_nil in Hin|].
  simpl. destruct (decide (l ∈ ls)) as [Hl|Hl].
  - apply IH; [done|]. by rewrite is_cell_cleared.
  - apply elem_of_cons in Hin as [->|Hin]; [|done].
    unfold element_of. rewrite foldl_cleared_lookup_notin by done.
    destruct (is_cell_lookup _ _ Hc) as [c Hl0].
    by rewrite (cleared_lookup_eq _ _ _ Hl0).
Qed.

Lemma has_hook_app_l hook h os l :
  l < length h -> has_hook hook (h ++ os) l = has_hook hook h l.
Proof. intros Hlt. unfold has_hook. by rewrite lookup_app_l. Qed.


Lemma cells_before_sub h cells l : l ∈ cells_before h cells -> l ∈ cells.
Proof.
  induction cells as [|l0 ls IH]; simpl; [done|].
  destruct (is_cell h l0); [|by intros ?%elem_of_nil].
  intros [->|Hin]%elem_of_cons; [left | right; auto].
Qed.

Lemma cells_before_cells h cells l :
  l ∈ cells_before h cells -> is_cell h l = true.
Proof.
  induction cells as [|l0 ls IH]; simpl; [by intros ?%elem_of_nil|].
  destruct (is_cell h l0) eqn:E; [|by intros ?%elem_of_nil].
  intros [->|Hin]%elem_of_cons; auto.
Qed.

Lemma cells_before_all h cells :
  forallb (is_cell h) cells = true -> cells_before h cells = cells.
Proof.
  induction cells as [|l ls IH]; simpl; [done|].
  destruct (is_cell h l); [|done]. simpl. intros H. by rewrite IH.
Qed.

Lemma forallb_is_cell h cells l :
  forallb (is_cell h) cells = true -> l ∈ cells -> is_cell h l = true.
Proof.
  intros Hall Hl. rewrite forallb_forall in Hall. apply Hall.
  by apply list_elem_of_In.
Qed.

(** ** What the methods of [Cell] compute *)

Lemma Cell_destroy_eq this arg st :
  Cell_destroy this arg st =
  (Normal arg,
   {| activeCells := activeCells st; availableCells := availableCells st;
      heap := cleared (heap st) this;
      trace := trace st ++ destroy_events (heap st) this arg |}).
Proof.
  unfold Cell_destroy, destroy_events, assign_element, cleared, has_hook, element_of,
    bind, log, get, set_heap, ret; simpl.
  destruct (heap st !! this) as [[c|items]|] eqn:E; simpl.
  - rewrite list_lookup_insert_eq by (by eapply lookup_lt_Some). simpl.
    destruct (onDestroy (constructor c)); simpl; [|done].
    by rewrite <- app_assoc.
  - rewrite E. done.
  - rewrite E. done.
Qed.

Lemma Cell_reload_eq this arg st :
  Cell_reload this arg st =
  (Normal arg,
   {| activeCells := activeCells st; availableCells := availableCells st;
      heap := heap st;
      trace := trace st ++ reload_events (heap st) this arg |}).
Proof.
  unfold Cell_reload, reload_events, bind, log, get, ret; simpl.
  destruct (has_hook onReload (heap st) this); simpl; [|done].
  by rewrite <- app_assoc.
Qed.

(** ** What the Builder computes *)

Section Semantics.

Variable JSON_parse : string -> option json.
Variable prototype_chain : string -> option inherited.

Lemma register_eq cell st :
  register prototype_chain cell st =
  if truthy (lookup_property prototype_chain (availableCells st) (cname cell))
  then (Normal tt, st)
  else if String.eqb (cname cell) "length" then (Throw RangeError, st)
  else (Normal tt,
        {| activeCells := activeCells st;
           availableCells := <[cname cell := cell]> (availableCells st);
           heap := heap st; trace := trace st |}).
Proof.
  unfold register, bind, get, ret, throw, set_availableCells.
  destruct (truthy _); [done|]. by destruct (String.eqb _ _).
Qed.

Lemma build_eq d e st :
  build JSON_parse prototype_chain d e st =
  match outcome JSON_parse prototype_chain (availableCells st) d e with
  | inl x => (Throw x, st)
  | inr o =>
      (Normal (length (heap st)),
       {| activeCells := activeCells st; availableCells := availableCells st;
          heap := heap st ++ [o];
          trace := trace st ++ [construction (length (heap st)) o] |})
  end.
Proof.
  unfold build, outcome, findByElement, construct, Cell_new, alloc, bind, get, throw,
    log, set_heap, ret; simpl.
  destruct (lookup_property prototype_chain (availableCells st)
              (ToString (dataset_cell d e))) as [c| | |n|]; simpl; try done.
  - destruct (JSON_parse (ToString (dataset_cellParams d e))) as [p|]; [|done].
    by destruct (after_super c d e p).
  - by destruct (N.eqb n 0).
Qed.

Lemma mapM_build_eq d es st :
  mapM (build JSON_parse prototype_chain d) es st =
  let (os, r) := outcomes JSON_parse prototype_chain (availableCells st) d es in
  (match r with
   | None => Normal (seq (length (heap st)) (length os))
   | Some x => Throw x
   end,
   {| activeCells := activeCells st; availableCells := availableCells st;
      heap := heap st ++ os;
      trace := trace st ++ news (length (heap st)) os |}).
Proof.
  revert st. induction es as [|e es IH]; intros st; simpl.
  - unfold ret. rewrite !app_nil_r. by destruct st.
  - unfold bind. rewrite build_eq.
    destruct (outcome JSON_parse prototype_chain (availableCells st) d e) as [x|o]; simpl.
    + rewrite !app_nil_r. by destruct st.
    + rewrite IH. simpl.
      destruct (outcomes JSON_parse prototype_chain (availableCells st) d es) as [os r].
      simpl. rewrite <- !app_assoc, length_app. simpl.
      replace (length (heap st) + 1) with (S (length (heap st))) by lia.
      by destruct r.
Qed.

Lemma findAndBuild_eq d st :
  findAndBuild JSON_parse prototype_chain d st =
  let (os, r) := outcomes JSON_parse prototype_chain (availableCells st) d
                   (querySelectorAll_data_cell d) in
  (match r with
   | None => Normal (seq (length (heap st)) (length os))
   | Some x => Throw x
   end,
   {| activeCells := activeCells st; availableCells := availableCells st;
      heap := heap st ++ os;
      trace := trace st ++ news (length (heap st)) os |}).
Proof. apply mapM_build_eq. Qed.

End Semantics.

Lemma orphan_eq found cell st :
  orphan found cell st =
  if is_cell (heap st) cell
  then (Normal false,
        {| activeCells := activeCells st; availableCells := availableCells st;
           heap := cleared (heap st) cell;
           trace := trace st ++ destroy_events (heap st) cell VUndefined |})
  else (Throw TypeError, st).
Proof.
  unfold orphan, call_destroy, bind, get, findByElement, throw. cbv zeta.
  destruct (is_cell (heap st) cell); [|done].
  by rewrite Cell_destroy_eq.
Qed.

Lemma filterM_orphans_eq found cells st :
  filterM (orphan found) cells st =
  (if forallb (is_cell (heap st)) cells then Normal [] else Throw TypeError,
   {| activeCells := activeCells st; availableCells := availableCells st;
      heap := foldl cleared (heap st) (cells_before (heap st) cells);
      trace := trace st ++
               flat_map (fun l => destroy_events (heap st) l VUndefined)
                        (cells_before (heap st) cells) |}).
Proof.
  revert st. induction cells as [|l cells IH]; intros st; simpl.
  - unfold ret. rewrite app_nil_r. by destruct st.
  - unfold bind. rewrite orphan_eq.
    destruct (is_cell (heap st) l) eqn:El; simpl.
    + rewrite IH. simpl.
      rewrite forallb_is_cell_cleared, cells_before_cleared.
      rewrite <- app_assoc.
      rewrite (flat_map_ext (fun l0 => destroy_events (cleared (heap st) l) l0 VUndefined)
                            (fun l0 => destroy_events (heap st) l0 VUndefined)).
      * unfold ret. by destruct (forallb (is_cell (heap st)) cells).
      * intros l'. unfold destroy_events. by rewrite has_hook_cleared.
    + rewrite app_nil_r. by destruct st.
Qed.

Lemma destroyOrphans_eq found st :
  destroyOrphans found st =
  (if forallb (is_cell (heap st)) (activeCells st) then Normal [] else Throw TypeError,
   {| activeCells := activeCells st; availableCells := availableCells st;
      heap := foldl cleared (heap st) (cells_before (heap st) (activeCells st));
      trace := trace st ++
               flat_map (fun l => destroy_events (heap st) l VUndefined)
                        (cells_before (heap st) (activeCells st)) |}).
Proof. unfold destroyOrphans, bind, get. apply filterM_orphans_eq. Qed.

Section Pass.

Variable JSON_parse : string -> option json.
Variable prototype_chain : string -> option inherited.

(** One pass, in closed form. *)
Lemma reload_eq d st :
  reload JSON_parse prototype_chain d st =
  let (os, r) := outcomes JSON_parse prototype_chain (availableCells st) d
                   (querySelectorAll_data_cell d) in
  match r with
  | Some x =>
      (Throw x,
       {| activeCells := activeCells st; availableCells := availableCells st;
          heap := heap st ++ os;
          trace := trace st ++ news (length (heap st)) os |})
  | None =>
      let destroyed := cells_before (heap st ++ os) (activeCells st) in
      (if forallb (is_cell (heap st ++ os)) (activeCells st)
       then Normal tt else Throw TypeError,
       {| activeCells := if forallb (is_cell (heap st ++ os)) (activeCells st)
                         then seq (length (heap st)) (length os)
                         else activeCells st;
          availableCells := availableCells st;
          heap := foldl cleared (heap st ++ os) destroyed;
          trace := (trace st ++ news (length (heap st)) os) ++
                   flat_map (fun l => destroy_events (heap st ++ os) l VUndefined)
                            destroyed |})
  end.
Proof.
  unfold reload, bind. rewrite findAndBuild_eq.
  destruct (outcomes JSON_parse prototype_chain (availableCells st) d
              (querySelectorAll_data_cell d)) as [os [x|]]; [done|].
  rewrite destroyOrphans_eq. simpl.
  by destruct (forallb _ _).
Qed.

End Pass.

(** ** Marker elements and the objects built for them *)

Section Outcomes.

Variable JSON_parse : string -> option json.
Variable prototype_chain : string -> option inherited.

(** The two ways the callback of [findAndBuild] returns. *)
Lemma outcome_inr reg d e o :
  outcome JSON_parse prototype_chain reg d e = inr o ->
  (exists c p,
     lookup_property prototype_chain reg (ToString (dataset_cell d e)) = PClass c /\
     JSON_parse (ToString (dataset_cellParams d e)) = Some p /\
     after_super c d e p = None /\
     o = OCell {| element := VElem e; name := cname c; params := p; constructor := c |})
  \/ (lookup_property prototype_chain reg (ToString (dataset_cell d e)) = PArray /\
      o = OArray [VElem e]).
Proof.
  unfold outcome.
  destruct (lookup_property prototype_chain reg (ToString (dataset_cell d e)))
    as [c| | |n|]; try done.
  - destruct (JSON_parse (ToString (dataset_cellParams d e))) as [p|]; [|done].
    destruct (after_super c d e p) eqn:Ea; [done|].
    intros [= <-]. left. by exists c, p.
  - intros [= <-]. by right.
  - by destruct (N.eqb n 0).
Qed.

Lemma outcomes_ok reg d es os :
  outcomes JSON_parse prototype_chain reg d es = (os, None) ->
  Forall2 (fun e o => outcome JSON_parse prototype_chain reg d e = inr o) es os.
Proof.
  revert os. induction es as [|e es IH]; intros os; simpl.
  - intros [= <-]. constructor.
  - destruct (outcome JSON_parse prototype_chain reg d e) as [x|o] eqn:E; [done|].
    destruct (outcomes JSON_parse prototype_chain reg d es) as [os' r].
    intros [= <- ->]. constructor; [done|]. by apply IH.
Qed.

Lemma outcomes_ok_length reg d es os :
  outcomes JSON_parse prototype_chain reg d es = (os, None) -> length os = length es.
Proof. intros H. symmetry. eapply Forall2_length, outcomes_ok, H. Qed.

(** The objects a pass has built before it stops. *)
Lemma outcomes_built reg d es os r :
  outcomes JSON_parse prototype_chain reg d es = (os, r) ->
  exists es1, es1 `prefix_of` es /\
    Forall2 (fun e o => outcome JSON_parse prototype_chain reg d e = inr o) es1 os.
Proof.
  revert os r. induction es as [|e es IH]; intros os r; simpl.
  - intros [= <- _]. exists []. split; [done|constructor].
  - destruct (outcome JSON_parse prototype_chain reg d e) as [x|o] eqn:E.
    + intros [= <- _]. exists []. split; [apply prefix_nil|constructor].
    + destruct (outcomes JSON_parse prototype_chain reg d es) as [os' r'].
      intros [= <- _]. destruct (IH os' r' eq_refl) as (es1 & Hpre & HF).
      exists (e :: es1). split; [by apply prefix_cons|by constructor].
Qed.

(** A pass throws at the first marker element whose callback throws. *)
Lemma outcomes_throw reg d es os x :
  outcomes JSON_parse prototype_chain reg d es = (os, Some x) ->
  exists es1 e es2,
    es = es1 ++ e :: es2 /\
    Forall2 (fun e o => outcome JSON_parse prototype_chain reg d e = inr o) es1 os /\
    outcome JSON_parse prototype_chain reg d e = inl x.
Proof.
  revert os. induction es as [|e es IH]; intros os; simpl; [done|].
  destruct (outcome JSON_parse prototype_chain reg d e) as [y|o] eqn:E.
  - intros [= <- <-]. exists [], e, es. repeat split; [constructor | done].
  - destruct (outcomes JSON_parse prototype_chain reg d es) as [os' r].
    intros [= <- ->].
    destruct (IH os' eq_refl) as (es1 & e' & es2 & -> & HF & He').
    exists (e :: es1), e', es2. repeat split; [by constructor | done].
Qed.



End Outcomes.

Lemma news_all_new base os : Forall (fun ev => is_EvNew ev = true) (news base os).
Proof.
  revert base. induction os as [|o os IH]; intros base; simpl; constructor; auto.
  by destruct o.
Qed.

Lemma news_length base os : length (news base os) = length os.
Proof. revert base. induction os as [|o os IH]; intros base; simpl; auto. Qed.

Lemma destroy_events_filter h l l' arg :
  List.filter (is_EvDestroy_of l') (destroy_events h l arg) =
  if Nat.eqb l l' then [EvDestroy l arg] else [].
Proof.
  unfold destroy_events. simpl.
  destruct (Nat.eqb l l'), (has_hook onDestroy h l); reflexivity.
Qed.

Lemma filter_all_false {A} (p : A -> bool) (xs : list A) :
  Forall (fun x => p x = false) xs -> List.filter p xs = [].
Proof. induction 1 as [|x xs Hx _ IH]; simpl; [done|]. by rewrite Hx. Qed.

Lemma news_no_destroy base os l : List.filter (is_EvDestroy_of l) (news base os) = [].
Proof.
  apply filter_all_false. eapply Forall_impl; [apply news_all_new|].
  by intros [] [=].
Qed.

Lemma news_no_reload base os : List.filter is_EvReload (news base os) = [].
Proof.
  apply filter_all_false. eapply Forall_impl; [apply news_all_new|].
  by intros [] [=].
Qed.

Lemma destroys_no_reload h ls :
  List.filter is_EvReload (flat_map (fun l => destroy_events h l VUndefined) ls) = [].
Proof.
  induction ls as [|l ls IH]; simpl; [done|].
  unfold destroy_events at 1. simpl.
  destruct (has_hook onDestroy h l); simpl; exact IH.
Qed.

Lemma destroys_filter_notin h ls l :
  l ∉ ls ->
  List.filter (is_EvDestroy_of l) (flat_map (fun l0 => destroy_events h l0 VUndefined) ls)
  = [].
Proof.
  induction ls as [|l0 ls IH]; intros Hn; [done|].
  apply not_elem_of_cons in Hn as [Hne Hn].
  cbn [flat_map]. rewrite List.filter_app, destroy_events_filter, IH by done.
  destruct (Nat.eqb_spec l0 l) as [->|_]; [done|reflexivity].
Qed.

(** Each active cell, listed once, is destroyed once. *)
Lemma destroys_filter h ls l :
  NoDup ls -> l ∈ ls ->
  List.filter (is_EvDestroy_of l) (flat_map (fun l0 => destroy_events h l0 VUndefined) ls)
  = [EvDestroy l VUndefined].
Proof.
  intros Hnd. induction Hnd as [|l0 ls Hnotin Hnd IH]; intros Hin.
  - by apply elem_of_nil in Hin.
  - cbn [flat_map]. rewrite List.filter_app, destroy_events_filter.
    destruct (decide (l ∈ ls)) as [Hl|Hl].
    + rewrite IH by done.
      destruct (Nat.eqb_spec l0 l) as [->|_]; [done|reflexivity].
    + apply elem_of_cons in Hin as [->|Hin]; [|done].
      rewrite Nat.eqb_refl. simpl. f_equal. by apply destroys_filter_notin.
Qed.

Lemma constructions_news base os : constructions (news base os) = news base os.
Proof.
  unfold constructions. revert base.
  induction os as [|o os IH]; intros base; simpl; [done|].
  rewrite IH. by destruct o.
Qed.

Lemma destructions_news base os : destructions (news base os) = [].
Proof.
  unfold destructions. apply filter_all_false.
  eapply Forall_impl; [apply news_all_new|]. by intros [] [=].
Qed.

Lemma constructions_destroys h ls :
  constructions (flat_map (fun l => destroy_events h l VUndefined) ls) = [].
Proof.
  unfold constructions. induction ls as [|l ls IH]; simpl; [done|].
  destruct (has_hook onDestroy h l); simpl; exact IH.
Qed.

Lemma destructions_destroys h ls :
  destructions (flat_map (fun l => destroy_events h l VUndefined) ls)
  = (fun l => EvDestroy l VUndefined) <$> ls.
Proof.
  unfold destructions. induction ls as [|l ls IH]; [done|].
  rewrite fmap_cons, <- IH. simpl.
  by destruct (has_hook onDestroy h l).
Qed.

(** ** The three ways a pass ends *)

Section Endings.

Variable JSON_parse : string -> option json.
Variable prototype_chain : string -> option inherited.

(** A pass that completes: every marker element has been built, and every
    entry of [activeCells] was a Cell and has had [destroy] called. *)
Lemma reload_completes st d st' :
  reload JSON_parse prototype_chain d st = (Normal tt, st') ->
  exists os,
    outcomes JSON_parse prototype_chain (availableCells st) d
      (querySelectorAll_data_cell d) = (os, None) /\
    forallb (is_cell (heap st ++ os)) (activeCells st) = true /\
    activeCells st' = seq (length (heap st)) (length os) /\
    availableCells st' = availableCells st /\
    heap st' = foldl cleared (heap st ++ os) (activeCells st) /\
    trace st' = (trace st ++ news (length (heap st)) os) ++
                flat_map (fun l => destroy_events (heap st ++ os) l VUndefined)
                         (activeCells st).
Proof.
  rewrite reload_eq.
  destruct (outcomes _ _ _ _ _) as [os [x|]]; [done|]. cbv zeta.
  destruct (forallb _ _) eqn:Hall; [|done].
  intros [= <-]. exists os. simpl. by rewrite (cells_before_all _ _ Hall).
Qed.

(** A pass that throws: in [findAndBuild], with the exception of a marker
    element, or in [destroyOrphans], with a TypeError, after [destroy] has
    been called on the entries of [activeCells] before the first that is not
    a Cell. *)
Lemma reload_throws_inv st d x st' :
  reload JSON_parse prototype_chain d st = (Throw x, st') ->
  activeCells st' = activeCells st /\
  availableCells st' = availableCells st /\
  exists os,
    (outcomes JSON_parse prototype_chain (availableCells st) d
       (querySelectorAll_data_cell d) = (os, Some x) /\
     heap st' = heap st ++ os /\
     trace st' = trace st ++ news (length (heap st)) os)
    \/
    (outcomes JSON_parse prototype_chain (availableCells st) d
       (querySelectorAll_data_cell d) = (os, None) /\
     x = TypeError /\
     forallb (is_cell (heap st ++ os)) (activeCells st) = false /\
     heap st' = foldl cleared (heap st ++ os)
                  (cells_before (heap st ++ os) (activeCells st)) /\
     trace st' = (trace st ++ news (length (heap st)) os) ++
                 flat_map (fun l => destroy_events (heap st ++ os) l VUndefined)
                          (cells_before (heap st ++ os) (activeCells st))).
Proof.
  rewrite reload_eq.
  destruct (outcomes _ _ _ _ _) as [os [y|]]; cbv zeta.
  - intros [= <- <-]. simpl. repeat split. exists os. by left.
  - destruct (forallb _ _) eqn:Hall; [done|].
    intros [= <- <-]. simpl. repeat split. exists os. by right.
Qed.

(** What either ending leaves of the heap and of the trace. *)
Lemma reload_frame st d r st' :
  reload JSON_parse prototype_chain d st = (r, st') ->
  availableCells st' = availableCells st /\
  exists os destroyed,
    length (heap st') = length (heap st) + length os /\
    (forall l, l ∈ destroyed -> l ∈ activeCells st) /\
    (forall l, l ∉ destroyed -> heap st' !! l = (heap st ++ os) !! l) /\
    (forall l, List.filter (is_EvDestroy_of l) (trace st')
               = List.filter (is_EvDestroy_of l) (trace st) ++
                 List.filter (is_EvDestroy_of l)
                   (flat_map (fun l0 => destroy_events (heap st ++ os) l0 VUndefined)
                             destroyed)) /\
    (activeCells st' = activeCells st \/
     activeCells st' = seq (length (heap st)) (length os)).
Proof.
  rewrite reload_eq.
  destruct (outcomes _ _ _ _ _) as [os [y|]]; cbv zeta.
  - intros [= <- <-]. simpl. split; [done|]. exists os, []. simpl.
    rewrite length_app. repeat split; try done.
    + by intros l ?%elem_of_nil.
    + intros l. by rewrite List.filter_app, news_no_destroy, !app_nil_r.
    + by left.
  - intros [= <- <-]. simpl. split; [done|].
    exists os, (cells_before (heap st ++ os) (activeCells st)).
    rewrite foldl_cleared_length, length_app. repeat split.
    + intros l. apply cells_before_sub.
    + intros l Hl. by apply foldl_cleared_lookup_notin.
    + intros l. by rewrite !List.filter_app, news_no_destroy, app_nil_r.
    + destruct (forallb _ _); [by right | by left].
Qed.

(** ** The invariant of the Builder's states *)

Lemma wf_initial : wf initial.
Proof. split; constructor. Qed.

Lemma register_frame cell st :
  activeCells (register prototype_chain cell st).2 = activeCells st /\
  heap (register prototype_chain cell st).2 = heap st /\
  trace (register prototype_chain cell st).2 = trace st.
Proof.
  rewrite register_eq. destruct (truthy _); [done|]. by destruct (String.eqb _ _).
Qed.

Lemma register_wf cell st : wf st -> wf (register prototype_chain cell st).2.
Proof.
  destruct (register_frame cell st) as (Ha & Hh & _).
  unfold wf. by rewrite Ha, Hh.
Qed.

Lemma reload_wf d st : wf st -> wf (reload JSON_parse prototype_chain d st).2.
Proof.
  intros [Hnd Hall].
  destruct (reload JSON_parse prototype_chain d st) as [r st'] eqn:Hrun.
  destruct (reload_frame _ _ _ _ Hrun) as (_ & os & ds & Hlen & _ & _ & _ & [Ha|Ha]);
    simpl; unfold wf; rewrite Ha, Hlen; split.
  - done.
  - eapply Forall_impl; [exact Hall|]. simpl. intros l Hl. lia.
  - apply NoDup_seq.
  - apply Forall_forall. intros l Hl. apply elem_of_seq in Hl. lia.
Qed.

Lemma step_wf st st' : step JSON_parse prototype_chain st st' -> wf st -> wf st'.
Proof.
  intros [cell|d|d] Hwf;
    [by apply register_wf | by apply reload_wf | by apply reload_wf].
Qed.

Lemma reachable_wf st : reachable JSON_parse prototype_chain st -> wf st.
Proof.
  unfold reachable. revert st.
  apply rtc_ind_r; [apply wf_initial|].
  intros st st' _ Hstep Hwf. by eapply step_wf.
Qed.

End Endings.

(** ** The sample run *)

Lemma completed {A} (r : completion A * State) a : r.1 = Normal a -> r = (Normal a, r.2).
Proof. destruct r as [c st]. simpl. by intros ->. Qed.

Lemma thrown {A} (r : completion A * State) x : r.1 = Throw x -> r = (Throw x, r.2).
Proof. destruct r as [c st]. simpl. by intros ->. Qed.

Lemma registered_reachable :
  reachable MiniJSON.parse Sample.prototype_chain Sample.registered.
Proof.
  unfold reachable, Sample.registered.
  eapply rtc_r; [eapply rtc_once|]; apply step_register.
Qed.

Lemma loaded_reachable : reachable MiniJSON.parse Sample.prototype_chain Sample.loaded.
Proof. eapply rtc_r; [apply registered_reachable | apply step_initialize]. Qed.

Lemma reloaded_reachable :
  reachable MiniJSON.parse Sample.prototype_chain Sample.reloaded.
Proof. eapply rtc_r; [apply loaded_reachable | apply step_reload]. Qed.

Lemma loaded_constructor_reachable :
  reachable MiniJSON.parse Sample.prototype_chain Sample.loaded_constructor.
Proof. eapply rtc_r; [apply registered_reachable | apply step_initialize]. Qed.

Lemma wf_loaded : wf Sample.loaded.
Proof. eapply reachable_wf, loaded_reachable. Qed.

Lemma reloaded_completes :
  reload MiniJSON.parse Sample.prototype_chain Sample.page2 Sample.loaded
  = (Normal tt, Sample.reloaded).
Proof. apply completed. vm_compute. reflexivity. Qed.

(** The scenario of the two pages, as the program runs it. *)
Example sample_run :
  activeCells Sample.loaded = [0; 1] /\
  element_of (heap Sample.loaded) <$> [0; 1] = [VElem 1; VElem 2] /\
  activeCells Sample.reloaded = [2; 3] /\
  element_of (heap Sample.reloaded) <$> [0; 1; 2; 3] = [VNull; VNull; VElem 2; VElem 3] /\
  trace Sample.reloaded =
    [EvNew 0 Sample.Foo (VElem 1); EvNew 1 Sample.Bar (VElem 2);
     EvNew 2 Sample.Bar (VElem 2); EvNew 3 Sample.Foo (VElem 3);
     EvDestroy 0 VUndefined; EvOnDestroy 0 VNull VUndefined;
     EvDestroy 1 VUndefined].
Proof. vm_compute. repeat split. Qed.

(** ** findByElement *)

Lemma strict_eq_refl v : strict_eq v v = true.
Proof. destruct v; simpl; [done | done | apply Nat.eqb_refl]. Qed.

(** The lookup in the body finds a cell whenever the list holds one that is
    bound to the element. *)
Lemma find_expression_finds st element cells l :
  l ∈ cells -> element_of (heap st) l = element ->
  is_Some (find_expression st element cells).
Proof.
  intros Hin Hel. unfold find_expression.
  destruct (List.find _ cells) as [l'|] eqn:E; [by eexists|].
  apply list_elem_of_In in Hin.
  pose proof (List.find_none _ _ E l Hin) as Hno. simpl in Hno.
  by rewrite Hel, strict_eq_refl in Hno.
Qed.

(** C10. [findByElement(element, cells)] evaluates to no cell for every
    element and every cell list, with or without the second argument: the
    body computes the lookup and has no [return].  This is so even when the
    list holds a cell bound to that very element, where the lookup inside the
    body does find a cell. *)
Theorem findByElement_returns_undefined (st : State) (element : value)
    (cells : option (list loc)) :
  findByElement st element cells = None /\
  forall l, l ∈ default (activeCells st) cells ->
            element_of (heap st) l = element ->
            is_Some (find_expression st element (default (activeCells st) cells)) /\
            findByElement st element cells = None.
Proof.
  split; [reflexivity|].
  intros l Hin Hel. split; [|reflexivity].
  by eapply find_expression_finds.
Qed.

Lemma findByElement_returns_undefined_witness :
  1 ∈ activeCells Sample.loaded /\
  element_of (heap Sample.loaded) 1 = VElem 2 /\
  is_Some (find_expression Sample.loaded (VElem 2) (activeCells Sample.loaded)) /\
  findByElement Sample.loaded (VElem 2) None = None.
Proof.
  assert (1 ∈ activeCells Sample.loaded) as Hin.
  { apply list_elem_of_In. vm_compute. auto. }
  assert (element_of (heap Sample.loaded) 1 = VElem 2) as Hel
    by (vm_compute; reflexivity).
  split; [exact Hin|]. split; [exact Hel|].
  destruct (findByElement_returns_undefined Sample.loaded (VElem 2) None) as [_ H].
  exact (H 1 Hin Hel).
Defined.

(** The lookup inside the body does find the cell that owns E2. *)
Example findByElement_drops_the_cell :
  find_expression Sample.loaded (VElem 2) (activeCells Sample.loaded) = Some 1 /\
  findByElement Sample.loaded (VElem 2) None = None /\
  findByElement Sample.loaded (VElem 2) (Some [0; 1]) = None.
Proof. vm_compute. repeat split. Qed.

(** ** Cell.destroy *)

(** C8. On a live instance, [destroy(e)] first sets [this.element] to [null],
    then calls [onDestroy(e)] when the class defines it (the hook sees the
    cleared field) and does nothing more when it does not, and returns [e];
    afterwards the instance holds no reference to its element, and nothing
    else has changed. *)
Theorem destroy_semantics (st : State) (this : loc) (c : Cell) (e : value) :
  heap st !! this = Some (OCell c) ->
  exists st',
    Cell_destroy this e st = (Normal e, st') /\
    heap st' = <[this := OCell (with_element VNull c)]> (heap st) /\
    element_of (heap st') this = VNull /\
    trace st' = trace st ++
      EvDestroy this e ::
      (if onDestroy (constructor c) then [EvOnDestroy this VNull e] else []) /\
    activeCells st' = activeCells st /\
    availableCells st' = availableCells st.
Proof.
  intros Hc. rewrite Cell_destroy_eq. eexists. split; [reflexivity|]. simpl.
  repeat split.
  - unfold cleared. by rewrite Hc.
  - by eapply element_of_cleared.
  - unfold destroy_events, has_hook. by rewrite Hc.
Qed.

Lemma destroy_semantics_witness :
  heap Sample.loaded !! 0 = Some (OCell Sample.foo1) /\
  exists st',
    Cell_destroy 0 (VElem 1) Sample.loaded = (Normal (VElem 1), st') /\
    heap st' = <[0 := OCell (with_element VNull Sample.foo1)]> (heap Sample.loaded) /\
    element_of (heap st') 0 = VNull /\
    trace st' = trace Sample.loaded ++
      EvDestroy 0 (VElem 1) ::
      (if onDestroy (constructor Sample.foo1)
       then [EvOnDestroy 0 VNull (VElem 1)] else []) /\
    activeCells st' = activeCells Sample.loaded /\
    availableCells st' = availableCells Sample.loaded.
Proof.
  split; [vm_compute; reflexivity|].
  apply (destroy_semantics Sample.loaded 0 Sample.foo1 (VElem 1)).
  vm_compute; reflexivity.
Defined.

(** ** Builder.register *)

(** C7, on names the array already knows.  [map] is a member of
    [Array.prototype]: [register] of a class of that name finds
    [availableCells["map"]] truthy, stores nothing and returns, so the first
    registration does not win: before and after a second registration the
    name resolves to the inherited member, not to the class, and a pass over
    a [data-cell="map"] element throws a TypeError.  Under the name [length]
    the assignment throws a RangeError and nothing is stored either. *)
Theorem inherited_name_is_not_registered :
  let st1 := (register Sample.prototype_chain Sample.map1 initial).2 in
  let st2 := (register Sample.prototype_chain Sample.map2 st1).2 in
  cname Sample.map2 = cname Sample.map1 /\
  register Sample.prototype_chain Sample.map1 initial = (Normal tt, initial) /\
  register Sample.prototype_chain Sample.map2 st1 = (Normal tt, initial) /\
  availableCells st2 !! "map" = None /\
  lookup_property Sample.prototype_chain (availableCells st2) "map" = PBuiltin /\
  (reload MiniJSON.parse Sample.prototype_chain
     (Sample.page [(1, (Some "map", Some (obj_n "1")))]) st2).1 = Throw TypeError /\
  register Sample.prototype_chain Sample.length1 initial = (Throw RangeError, initial) /\
  lookup_property Sample.prototype_chain
    (availableCells (register Sample.prototype_chain Sample.length1 initial).2) "length"
  = PNumber 0.
Proof. vm_compute. repeat split. Qed.

Section Registry.

Variable JSON_parse : string -> option json.
Variable prototype_chain : string -> option inherited.

Lemma lookup_property_own t n c :
  n <> "length" -> t !! n = Some c -> lookup_property prototype_chain t n = PClass c.
Proof.
  intros Hn Hc. unfold lookup_property.
  apply String.eqb_neq in Hn. by rewrite Hn, Hc.
Qed.

Lemma lookup_property_class t n c :
  lookup_property prototype_chain t n = PClass c -> t !! n = Some c.
Proof.
  unfold lookup_property. destruct (String.eqb n "length"); [done|].
  destruct (t !! n); [by intros [= ->]|].
  by destruct (prototype_chain n) as [[]|].
Qed.

(** No call of the Builder removes or replaces a stored class. *)
Lemma step_keeps_registration st st' n c :
  step JSON_parse prototype_chain st st' ->
  availableCells st !! n = Some c -> availableCells st' !! n = Some c.
Proof.
  intros [cell|d|d] Hn.
  - rewrite register_eq.
    destruct (truthy _) eqn:Ht; [done|].
    destruct (String.eqb (cname cell) "length") eqn:El; [done|]. simpl.
    rewrite lookup_insert_ne; [done|]. intros <-.
    apply String.eqb_neq in El.
    by rewrite (lookup_property_own _ _ _ El Hn) in Ht.
  - destruct (reload JSON_parse prototype_chain d st) as [r st1] eqn:Hrun. simpl.
    destruct (reload_frame _ _ _ _ _ _ Hrun) as [-> _]. done.
  - unfold initialize.
    destruct (reload JSON_parse prototype_chain d st) as [r st1] eqn:Hrun. simpl.
    destruct (reload_frame _ _ _ _ _ _ Hrun) as [-> _]. done.
Qed.

Lemma steps_keep_registration st st' n c :
  rtc (step JSON_parse prototype_chain) st st' ->
  availableCells st !! n = Some c -> availableCells st' !! n = Some c.
Proof.
  induction 1 as [|st st1 st2 Hstep _ IH]; [done|].
  intros Hn. apply IH. by eapply step_keeps_registration.
Qed.

(** X20. For a name that the array neither inherits nor treats as its
    [length], registration is first-write-wins: when [c1] is the first class
    registered under the name and [c2] has the same name, [register(c2)]
    after [register(c1)] returns normally and leaves the whole state as it
    was, and after any further calls of the Builder the name still resolves
    to [c1]. *)
Theorem register_first_write_wins (st : State) (c1 c2 : CellClass) :
  cname c1 <> "length" ->
  prototype_chain (cname c1) = None ->
  availableCells st !! cname c1 = None ->
  cname c2 = cname c1 ->
  let st1 := (register prototype_chain c1 st).2 in
  let st2 := (register prototype_chain c2 st1).2 in
  register prototype_chain c1 st = (Normal tt, st1) /\
  register prototype_chain c2 st1 = (Normal tt, st1) /\
  forall st3, rtc (step JSON_parse prototype_chain) st2 st3 ->
              lookup_property prototype_chain (availableCells st3) (cname c1) = PClass c1.
Proof.
  intros Hlen Hproto Hfresh Hname st1 st2.
  pose proof Hlen as Hlen'. apply String.eqb_neq in Hlen'.
  assert (register prototype_chain c1 st =
          (Normal tt, {| activeCells := activeCells st;
                         availableCells := <[cname c1 := c1]> (availableCells st);
                         heap := heap st; trace := trace st |})) as Hreg1.
  { rewrite register_eq. unfold lookup_property.
    by rewrite Hlen', Hfresh, Hproto. }
  assert (availableCells st1 !! cname c1 = Some c1) as H1.
  { unfold st1. rewrite Hreg1. simpl. apply lookup_insert_eq. }
  assert (register prototype_chain c2 st1 = (Normal tt, st1)) as H2.
  { rewrite register_eq, Hname, (lookup_property_own _ _ _ Hlen H1). reflexivity. }
  split; [by unfold st1; rewrite Hreg1|]. split; [exact H2|].
  intros st3 Hsteps. apply lookup_property_own; [done|].
  eapply steps_keep_registration; [exact Hsteps|].
  unfold st2. by rewrite H2.
Qed.

(** X9. Registering two classes of different names, neither of them
    [length], gives the same result in either order. *)
Theorem register_commutes (a b : CellClass) (st : State) :
  cname a <> cname b ->
  cname a <> "length" -> cname b <> "length" ->
  (register prototype_chain a;; register prototype_chain b) st
  = (register prototype_chain b;; register prototype_chain a) st.
Proof.
  intros Hne Ha Hb. apply String.eqb_neq in Ha, Hb.
  unfold bind. rewrite (register_eq _ a st), (register_eq _ b st).
  unfold lookup_property at 1 2. rewrite Ha, Hb.
  destruct (availableCells st !! cname a) as [ca|] eqn:Ea;
    destruct (availableCells st !! cname b) as [cb|] eqn:Eb; simpl.
  - rewrite !register_eq. unfold lookup_property. by rewrite Ha, Hb, Ea, Eb.
  - destruct (prototype_chain (cname b)) as [[]|] eqn:Pb; simpl;
      rewrite !register_eq; unfold lookup_property; simpl;
      rewrite ?Ha, ?Hb, ?Ea, ?Eb, ?Pb, ?lookup_insert_ne by done;
      rewrite ?Ea, ?Eb; simpl; reflexivity.
  - destruct (prototype_chain (cname a)) as [[]|] eqn:Pa; simpl;
      rewrite !register_eq; unfold lookup_property; simpl;
      rewrite ?Ha, ?Hb, ?Ea, ?Eb, ?Pa, ?lookup_insert_ne by done;
      rewrite ?Ea, ?Eb; simpl; reflexivity.
  - destruct (prototype_chain (cname a)) as [[]|] eqn:Pa;
      destruct (prototype_chain (cname b)) as [[]|] eqn:Pb; simpl;
      rewrite !register_eq; unfold lookup_property; simpl;
      rewrite ?Ha, ?Hb, ?Ea, ?Eb, ?Pa, ?Pb, ?lookup_insert_ne by done;
      rewrite ?Ea, ?Eb, ?Pa, ?Pb; simpl; try reflexivity.
    do 2 f_equal. by apply insert_insert_ne.
Qed.

End Registry.

Lemma register_first_write_wins_witness :
  cname Sample.Foo <> "length" /\
  Sample.prototype_chain (cname Sample.Foo) = None /\
  availableCells initial !! cname Sample.Foo = None /\
  cname Sample.Foo2 = cname Sample.Foo /\
  let st1 := (register Sample.prototype_chain Sample.Foo initial).2 in
  let st2 := (register Sample.prototype_chain Sample.Foo2 st1).2 in
  register Sample.prototype_chain Sample.Foo initial = (Normal tt, st1) /\
  register Sample.prototype_chain Sample.Foo2 st1 = (Normal tt, st1) /\
  forall st3,
    rtc (step MiniJSON.parse Sample.prototype_chain) st2 st3 ->
    lookup_property Sample.prototype_chain (availableCells st3) (cname Sample.Foo)
    = PClass Sample.Foo.
Proof.
  assert (cname Sample.Foo <> "length") as Hlen by discriminate.
  split; [exact Hlen|]. split; [reflexivity|]. split; [reflexivity|].
  split; [reflexivity|].
  exact (register_first_write_wins MiniJSON.parse Sample.prototype_chain initial
           Sample.Foo Sample.Foo2 Hlen eq_refl eq_refl eq_refl).
Defined.

Lemma register_commutes_witness :
  cname Sample.Foo <> cname Sample.Bar /\
  cname Sample.Foo <> "length" /\ cname Sample.Bar <> "length" /\
  (register Sample.prototype_chain Sample.Foo;;
   register Sample.prototype_chain Sample.Bar) initial
  = (register Sample.prototype_chain Sample.Bar;;
     register Sample.prototype_chain Sample.Foo) initial.
Proof.
  assert (cname Sample.Foo <> cname Sample.Bar) as Hne by discriminate.
  assert (cname Sample.Foo <> "length") as Ha by discriminate.
  assert (cname Sample.Bar <> "length") as Hb by discriminate.
  split; [exact Hne|]. split; [exact Ha|]. split; [exact Hb|].
  exact (register_commutes Sample.prototype_chain Sample.Foo Sample.Bar initial
           Hne Ha Hb).
Defined.

(** After both registrations a [data-cell="Foo"] element is built by the
    first class. *)
Example first_registration_builds :
  let st := (register Sample.prototype_chain Sample.Foo2
               (register Sample.prototype_chain Sample.Foo initial).2).2 in
  (fun o => match o with OCell c => Some (cid (constructor c)) | OArray _ => None end)
    <$> heap (reload MiniJSON.parse Sample.prototype_chain Sample.page2
                (register Sample.prototype_chain Sample.Bar st).2).2
  = [Some 2; Some 1].
Proof. vm_compute. reflexivity. Qed.

(** ** Failing passes *)

Section Failure.

Variable JSON_parse : string -> option json.
Variable prototype_chain : string -> option inherited.


(** X22. A pass that throws anything but a TypeError, so in particular the
    error of an unknown type or the SyntaxError of [JSON.parse], has thrown
    it in [findAndBuild], before [destroyOrphans]: [activeCells] and the
    registry are as they were, every object that existed before the call is
    untouched, and the only calls made are calls of constructors. *)
Theorem reload_failure_atomic (st : State) (d : Document) (x : exn) (st' : State) :
  reload JSON_parse prototype_chain d st = (Throw x, st') ->
  x <> TypeError ->
  findAndBuild JSON_parse prototype_chain d st = (Throw x, st') /\
  activeCells st' = activeCells st /\
  availableCells st' = availableCells st /\
  (forall l o, heap st !! l = Some o -> heap st' !! l = Some o) /\
  exists tr, trace st' = trace st ++ tr /\
             Forall (fun ev => is_EvNew ev = true) tr.
Proof.
  intros Hrun Hx.
  destruct (reload_throws_inv _ _ _ _ _ _ Hrun)
    as (Ha & Hr & os & [(Hos & Hh & Ht)|(_ & -> & _)]); [|done].
  split.
  - rewrite findAndBuild_eq, Hos. destruct st'. simpl in *. by subst.
  - repeat split; try done.
    + intros l o Hl. rewrite Hh. by apply lookup_app_l_Some.
    + eexists. split; [exact Ht | apply news_all_new].
Qed.





(** The configuration attribute is read as a string: a missing attribute
    reads as the text [undefined], which is not JSON. *)
Hypothesis JSON_parse_undefined : JSON_parse "undefined" = None.


End Failure.





(** On [page_unknown] the error names [Baz], and the two live cells of the
    loaded page are still the active ones, untouched. *)
Example reload_unknown :
  let r := reload MiniJSON.parse Sample.prototype_chain Sample.page_unknown
             Sample.loaded in
  r.1 = Throw (Error "Cell with name Baz not found") /\
  activeCells r.2 = [0; 1] /\
  element_of (heap r.2) <$> [0; 1] = [VElem 1; VElem 2] /\
  drop (length (trace Sample.loaded)) (trace r.2) = [EvNew 2 Sample.Bar (VElem 2)].
Proof. vm_compute. repeat split. Qed.

Lemma reload_failure_atomic_witness :
  let st' := (reload MiniJSON.parse Sample.prototype_chain Sample.page_unknown
                Sample.loaded).2 in
  reload MiniJSON.parse Sample.prototype_chain Sample.page_unknown Sample.loaded
  = (Throw (Error "Cell with name Baz not found"), st') /\
  Error "Cell with name Baz not found" <> TypeError /\
  findAndBuild MiniJSON.parse Sample.prototype_chain Sample.page_unknown Sample.loaded
  = (Throw (Error "Cell with name Baz not found"), st') /\
  activeCells st' = activeCells Sample.loaded /\
  availableCells st' = availableCells Sample.loaded /\
  (forall l o, heap Sample.loaded !! l = Some o -> heap st' !! l = Some o) /\
  exists tr, trace st' = trace Sample.loaded ++ tr /\
             Forall (fun ev => is_EvNew ev = true) tr.
Proof.
  intros st'.
  assert (reload MiniJSON.parse Sample.prototype_chain Sample.page_unknown
            Sample.loaded
          = (Throw (Error "Cell with name Baz not found"), st')) as Hrun.
  { apply thrown. vm_compute. reflexivity. }
  assert (Error "Cell with name Baz not found" <> TypeError) as Hx by discriminate.
  split; [exact Hrun|]. split; [exact Hx|].
  exact (reload_failure_atomic MiniJSON.parse Sample.prototype_chain _ _ _ _ Hrun Hx).
Defined.


(** The cases of C9 on the sample pages. *)
Example construction_cases :
  (Cell_new MiniJSON.parse Sample.page_missing Sample.Foo 6 Sample.loaded).1
    = Throw SyntaxError /\
  (Cell_new MiniJSON.parse Sample.page_malformed Sample.Foo 5 Sample.loaded).1
    = Throw SyntaxError /\
  (reload MiniJSON.parse Sample.prototype_chain Sample.page_missing Sample.loaded).1
    = Throw SyntaxError /\
  let r := Cell_new MiniJSON.parse Sample.page2 Sample.Foo 3 Sample.loaded in
  r.1 = Normal 2 /\
  (fun o => match o with OCell c => Some (params c) | OArray _ => None end)
    <$> heap r.2 !! 2 = Some (Some (JObj [("n", JNum 3)])).
Proof. vm_compute. repeat split. Qed.

(** C4, on a page with an unknown type.  Nothing is registered under
    [constructor], yet [initialize()] on [page_constructor] completes: the
    name resolves to the inherited [Array], and [activeCells] becomes the
    Foo cell 0 and the Array 1.  The next [reload()], on the unchanged page,
    builds two more objects, calls [destroy()] on cell 0, and then throws a
    TypeError at the Array, which has no [destroy]: the pass has failed,
    [activeCells] is still cell 0 and the Array, and cell 0 has been
    destroyed. *)
Theorem failing_pass_destroys_a_cell :
  querySelectorAll_data_cell Sample.page_constructor = [1; 7] /\
  unknown_type Sample.registered Sample.page_constructor 7 /\
  initialize MiniJSON.parse Sample.prototype_chain Sample.page_constructor
    Sample.registered = (Normal tt, Sample.loaded_constructor) /\
  activeCells Sample.loaded_constructor = [0; 1] /\
  element_of (heap Sample.loaded_constructor) 0 = VElem 1 /\
  unknown_type Sample.loaded_constructor Sample.page_constructor 7 /\
  reload MiniJSON.parse Sample.prototype_chain Sample.page_constructor
    Sample.loaded_constructor = (Throw TypeError, Sample.reloaded_constructor) /\
  activeCells Sample.reloaded_constructor = [0; 1] /\
  element_of (heap Sample.reloaded_constructor) 0 = VNull /\
  drop (length (trace Sample.loaded_constructor)) (trace Sample.reloaded_constructor) =
    [EvNew 2 Sample.Foo (VElem 1); EvNewArray 3 (VElem 7);
     EvDestroy 0 VUndefined; EvOnDestroy 0 VNull VUndefined].
Proof.
  split; [reflexivity|]. split; [vm_compute; reflexivity|].
  split; [apply completed; vm_compute; reflexivity|].
  split; [vm_compute; reflexivity|]. split; [vm_compute; reflexivity|].
  split; [vm_compute; reflexivity|].
  split; [apply thrown; vm_compute; reflexivity|].
  vm_compute. repeat split.
Qed.

(** C3, on a page with an unknown type.  [initialize()] on
    [page_constructor] completes although nothing is registered under
    [constructor], and the entry of [activeCells] it has built for the marker
    element E7 is the Array [[E7]]: no active cell has E7 as its [element]. *)
Theorem array_becomes_an_active_cell :
  querySelectorAll_data_cell Sample.page_constructor = [1; 7] /\
  availableCells Sample.registered !! "constructor" = None /\
  initialize MiniJSON.parse Sample.prototype_chain Sample.page_constructor
    Sample.registered = (Normal tt, Sample.loaded_constructor) /\
  activeCells Sample.loaded_constructor = [0; 1] /\
  heap Sample.loaded_constructor !! 1 = Some (OArray [VElem 7]) /\
  element_of (heap Sample.loaded_constructor) 1 = VUndefined /\
  owners Sample.loaded_constructor 7 = [] /\
  length (owners Sample.loaded_constructor 7) <> 1.
Proof.
  split; [reflexivity|]. split; [vm_compute; reflexivity|].
  split; [apply completed; vm_compute; reflexivity|].
  vm_compute. repeat split. discriminate.
Qed.

(** ** Completed passes *)

Lemma elements_of_new_cells h os :
  element_of (h ++ os) <$> seq (length h) (length os) = object_element <$> os.
Proof.
  revert h. induction os as [|o os IH]; intros h; [done|].
  cbn [length seq]. rewrite !fmap_cons. f_equal.
  - unfold element_of. rewrite list_lookup_middle by done. by destruct o.
  - specialize (IH (h ++ [o])). rewrite <- app_assoc, length_app in IH.
    simpl in IH. by rewrite Nat.add_1_r in IH.
Qed.

Lemma filter_fmap_length {A B} (f : A -> B) (p : B -> bool) (xs : list A) :
  length (List.filter (fun x => p (f x)) xs) = length (List.filter p (f <$> xs)).
Proof.
  induction xs as [|x xs IH]; [done|].
  rewrite fmap_cons. simpl. destruct (p (f x)); simpl; by rewrite IH.
Qed.

Lemma one_owner (es : list elem) (e : elem) :
  NoDup es -> e ∈ es ->
  length (List.filter (fun v => strict_eq v (VElem e)) (VElem <$> es)) = 1.
Proof.
  intros Hnd. induction Hnd as [|e0 es Hnotin _ IH]; intros Hin.
  - by apply elem_of_nil in Hin.
  - rewrite fmap_cons. simpl. destruct (Nat.eqb_spec e0 e) as [->|Hne].
    + simpl. f_equal. apply length_zero_iff_nil, filter_all_false.
      apply Forall_forall. intros v Hv.
      apply list_elem_of_fmap in Hv as (e1 & -> & He1). simpl.
      apply Nat.eqb_neq. intros ->. by apply Hnotin.
    + apply elem_of_cons in Hin as [->|Hin]; [done|]. by apply IH.
Qed.

Lemma NoDup_querySelectorAll d : NoDup (nodes d) -> NoDup (querySelectorAll_data_cell d).
Proof.
  intros H. apply NoDup_ListNoDup. apply List.NoDup_filter. by apply NoDup_ListNoDup.
Qed.

Lemma markers_have_type d :
  Forall (fun e => is_Some (dataset_cell d e)) (querySelectorAll_data_cell d).
Proof.
  apply Forall_forall. intros e He. apply list_elem_of_In in He.
  unfold querySelectorAll_data_cell in He. apply List.filter_In in He as [_ He].
  by apply bool_decide_eq_true_1 in He.
Qed.

Lemma Forall2_and_l {A B} (Q : A -> Prop) (P : A -> B -> Prop) xs ys :
  Forall Q xs -> Forall2 P xs ys -> Forall2 (fun x y => Q x /\ P x y) xs ys.
Proof.
  intros HQ HP. induction HP as [|x y xs ys Hxy _ IH]; [constructor|].
  apply Forall_cons in HQ as [Hx HQ]. constructor; auto.
Qed.

(** The objects appended to the heap, by reference. *)
Lemma new_cells_lookup {A} (P : A -> object -> Prop) (h : list object) xs os :
  Forall2 P xs os ->
  Forall2 (fun x l => length h <= l /\ exists o, (h ++ os) !! l = Some o /\ P x o)
          xs (seq (length h) (length os)).
Proof.
  intros HP. revert h. induction HP as [|x o xs os Hxo _ IH]; intros h; [constructor|].
  cbn [length seq]. constructor.
  - split; [lia|]. exists o. by rewrite list_lookup_middle.
  - specialize (IH (h ++ [o])). rewrite <- app_assoc, length_app in IH.
    simpl in IH. rewrite Nat.add_1_r in IH.
    eapply Forall2_impl; [exact IH|]. simpl. intros x' l [Hle Hc]. split; [lia|done].
Qed.

Section Success.

Variable JSON_parse : string -> option json.
Variable prototype_chain : string -> option inherited.




(** The new active cells of a page whose marker elements all name registered
    classes are bound, in order, to the marker elements. *)
Lemma reload_elements st d st' :
  wf st ->
  Forall (names_a_class prototype_chain st d) (querySelectorAll_data_cell d) ->
  reload JSON_parse prototype_chain d st = (Normal tt, st') ->
  element_of (heap st') <$> activeCells st' = VElem <$> querySelectorAll_data_cell d.
Proof.
  intros [_ Hall] Hnames Hrun.
  destruct (reload_completes _ _ _ _ _ Hrun) as (os & Hos & _ & -> & _ & -> & _).
  assert (object_element <$> os = VElem <$> querySelectorAll_data_cell d) as <-.
  { apply outcomes_ok in Hos.
    induction Hos as [|e o es os Ho _ IH]; [done|].
    apply Forall_cons in Hnames as [[c Hc] Hnames].
    rewrite !fmap_cons. f_equal; [|by apply IH].
    destruct (outcome_inr _ _ _ _ _ _ Ho) as [(c' & p & _ & _ & _ & ->)|[Harr _]];
      [done | congruence]. }
  rewrite <- (elements_of_new_cells (heap st)).
  apply list_fmap_ext. intros i l Hl.
  apply lookup_seq in Hl as [-> _].
  unfold element_of. rewrite foldl_cleared_lookup_notin; [done|].
  intros Hin. rewrite Forall_forall in Hall. apply Hall in Hin. lia.
Qed.

(** X21. After a completed pass over a page whose marker elements all name
    registered classes, each marker element of the page is the element of
    exactly one active cell, and every active cell is bound to a marker
    element of the page. *)
Theorem reload_invariant (st : State) (d : Document) (st' : State) :
  reachable JSON_parse prototype_chain st ->
  NoDup (nodes d) ->
  Forall (names_a_class prototype_chain st d) (querySelectorAll_data_cell d) ->
  reload JSON_parse prototype_chain d st = (Normal tt, st') ->
  (forall e, e ∈ querySelectorAll_data_cell d -> length (owners st' e) = 1) /\
  (forall l, l ∈ activeCells st' ->
             exists e, element_of (heap st') l = VElem e /\
                       e ∈ querySelectorAll_data_cell d).
Proof.
  intros Hreach Hnd Hnames Hrun.
  pose proof (reload_elements _ _ _ (reachable_wf _ _ _ Hreach) Hnames Hrun) as Hel.
  split.
  - intros e He. unfold owners.
    rewrite (filter_fmap_length (element_of (heap st'))
               (fun v => strict_eq v (VElem e))), Hel.
    apply one_owner; [by apply NoDup_querySelectorAll | done].
  - intros l Hl.
    assert (element_of (heap st') l ∈ VElem <$> querySelectorAll_data_cell d) as Hv.
    { rewrite <- Hel. by apply list_elem_of_fmap_2. }
    apply list_elem_of_fmap in Hv as (e & Hv & He). by exists e.
Qed.

(** Every cell that was active before a completed pass has had [destroy()]
    called once, without an argument, has lost its element, and is not
    active any more, whether its element is still in the page or not. *)
Lemma reload_destroys_every_cell st d st' l :
  wf st ->
  reload JSON_parse prototype_chain d st = (Normal tt, st') ->
  l ∈ activeCells st ->
  exists tr,
    trace st' = trace st ++ tr /\
    List.filter (is_EvDestroy_of l) tr = [EvDestroy l VUndefined] /\
    (l ∉ activeCells st') /\
    element_of (heap st') l = VNull.
Proof.
  intros [Hnd Hall] Hrun Hl.
  destruct (reload_completes _ _ _ _ _ Hrun) as (os & Hos & Hcells & Hact & _ & Hheap & Htr).
  assert (l < length (heap st)) as Hlt.
  { rewrite Forall_forall in Hall. by apply Hall. }
  eexists. split; [rewrite Htr, <- app_assoc; reflexivity|].
  split; [|split].
  - rewrite List.filter_app, news_no_destroy. simpl. by apply destroys_filter.
  - rewrite Hact. intros Hin. apply elem_of_seq in Hin. lia.
  - rewrite Hheap. apply element_of_foldl_cleared_in; [done|].
    by eapply forallb_is_cell.
Qed.

(** C5. For an active cell whose element is not among the marker elements
    of the new page, a pass that completes calls [destroy()] on it exactly
    once, with no argument, and the cell is not in the new [activeCells]. *)
Theorem orphan_teardown (st : State) (d : Document) (st' : State) (l : loc) :
  reachable JSON_parse prototype_chain st ->
  reload JSON_parse prototype_chain d st = (Normal tt, st') ->
  l ∈ activeCells st ->
  (forall e, element_of (heap st) l = VElem e -> e ∉ querySelectorAll_data_cell d) ->
  exists tr,
    trace st' = trace st ++ tr /\
    List.filter (is_EvDestroy_of l) tr = [EvDestroy l VUndefined] /\
    l ∉ activeCells st'.
Proof.
  intros Hreach Hrun Hl _.
  destruct (reload_destroys_every_cell st d st' l (reachable_wf _ _ _ Hreach) Hrun Hl)
    as (tr & Htr & Hd & Hnot & _).
  by exists tr.
Qed.

(** No pass ever calls [reload] on a cell, and no cell survives a completed
    pass: the new active cells are objects that did not exist before. *)
Lemma reload_never_reuses st d st' :
  wf st ->
  reload JSON_parse prototype_chain d st = (Normal tt, st') ->
  (forall l, l ∈ activeCells st' -> (l ∉ activeCells st) /\ length (heap st) <= l) /\
  exists tr, trace st' = trace st ++ tr /\ List.filter is_EvReload tr = [].
Proof.
  intros [_ Hall] Hrun.
  destruct (reload_completes _ _ _ _ _ Hrun) as (os & Hos & _ & Hact & _ & Hheap & Htr).
  split.
  - intros l Hl. rewrite Hact in Hl. apply elem_of_seq in Hl.
    split; [|lia]. intros Hin. rewrite Forall_forall in Hall.
    apply Hall in Hin. lia.
  - eexists. split; [rewrite Htr, <- app_assoc; reflexivity|].
    by rewrite List.filter_app, news_no_reload, destroys_no_reload.
Qed.

(** X8. A completed pass calls a constructor once per marker element and
    [destroy] once per cell that was active, allocates one object per marker
    element, and ends with as many active cells as marker elements. *)
Theorem reload_call_counts (st : State) (d : Document) (st' : State) :
  reload JSON_parse prototype_chain d st = (Normal tt, st') ->
  exists tr,
    trace st' = trace st ++ tr /\
    length (constructions tr) = length (querySelectorAll_data_cell d) /\
    length (destructions tr) = length (activeCells st) /\
    length (heap st') = length (heap st) + length (querySelectorAll_data_cell d) /\
    length (activeCells st') = length (querySelectorAll_data_cell d).
Proof.
  intros Hrun.
  destruct (reload_completes _ _ _ _ _ Hrun) as (os & Hos & _ & -> & _ & -> & ->).
  pose proof (outcomes_ok_length _ _ _ _ _ _ Hos) as Hlen.
  eexists. split; [by rewrite <- app_assoc|].
  unfold constructions, destructions. rewrite !List.filter_app.
  fold (constructions (news (length (heap st)) os)).
  fold (destructions (news (length (heap st)) os)).
  fold (constructions (flat_map (fun l => destroy_events (heap st ++ os) l VUndefined)
                                (activeCells st))).
  fold (destructions (flat_map (fun l => destroy_events (heap st ++ os) l VUndefined)
                               (activeCells st))).
  rewrite constructions_news, constructions_destroys, destructions_news,
    destructions_destroys.
  rewrite app_nil_r, app_nil_l, length_fmap, news_length, foldl_cleared_length,
    length_app, length_seq, Hlen.
  auto.
Qed.

(** X2. On a page without marker elements a pass builds nothing and throws
    no error of an unknown type, whatever is registered.  It completes
    exactly when every entry of [activeCells] is a Cell, and then leaves no
    active cell and every cell that was active without its element; otherwise
    it throws a TypeError and keeps [activeCells]. *)
Theorem reload_without_markers (st : State) (d : Document) :
  querySelectorAll_data_cell d = [] ->
  exists r st',
    reload JSON_parse prototype_chain d st = (r, st') /\
    r = (if forallb (is_cell (heap st)) (activeCells st)
         then Normal tt else Throw TypeError) /\
    (r = Normal tt ->
     activeCells st' = [] /\
     forall l, l ∈ activeCells st -> element_of (heap st') l = VNull) /\
    (r <> Normal tt -> activeCells st' = activeCells st) /\
    availableCells st' = availableCells st /\
    length (heap st') = length (heap st).
Proof.
  intros Hnone. rewrite reload_eq, Hnone. simpl. rewrite app_nil_r.
  eexists _, _. split; [reflexivity|]. split; [reflexivity|]. simpl.
  destruct (forallb (is_cell (heap st)) (activeCells st)) eqn:Hcells.
  - rewrite (cells_before_all _ _ Hcells), foldl_cleared_length.
    repeat split; try done.
    intros l Hl. apply element_of_foldl_cleared_in; [done|].
    by eapply forallb_is_cell.
  - rewrite foldl_cleared_length. repeat split; done.
Qed.

End Success.

(** X1. [destroyOrphans(found)] keeps no cell, whatever [found] holds.  It
    calls [destroy()], in order and without an argument, on the entries of
    [activeCells] up to the first one that is not a Cell, and clears the
    element of each; it touches no other object, nor [activeCells], nor the
    registry.  When every entry is a Cell it returns the empty list;
    otherwise it throws a TypeError at the first entry that is not. *)
Theorem destroyOrphans_spares_nothing (found : list loc) (st : State) :
  let destroyed := cells_before (heap st) (activeCells st) in
  exists st',
    destroyOrphans found st =
      (if forallb (is_cell (heap st)) (activeCells st)
       then Normal [] else Throw TypeError, st') /\
    (forallb (is_cell (heap st)) (activeCells st) = true ->
     destroyed = activeCells st) /\
    activeCells st' = activeCells st /\
    availableCells st' = availableCells st /\
    (forall l, l ∈ destroyed -> element_of (heap st') l = VNull) /\
    (forall l, l ∉ destroyed -> heap st' !! l = heap st !! l) /\
    exists tr, trace st' = trace st ++ tr /\
               destructions tr = (fun l => EvDestroy l VUndefined) <$> destroyed.
Proof.
  intros destroyed. rewrite destroyOrphans_eq.
  eexists. split; [reflexivity|]. simpl. repeat split.
  - apply cells_before_all.
  - intros l Hl. apply element_of_foldl_cleared_in; [done|].
    by eapply cells_before_cells.
  - intros l Hl. by apply foldl_cleared_lookup_notin.
  - eexists. split; [reflexivity | apply destructions_destroys].
Qed.

(** On the sample states: all cells, and a cell followed by an Array. *)
Example destroyOrphans_sample :
  (destroyOrphans [0; 1] Sample.loaded).1 = Normal [] /\
  element_of (heap (destroyOrphans [0; 1] Sample.loaded).2) <$> [0; 1] = [VNull; VNull] /\
  (destroyOrphans [0; 1] Sample.loaded_constructor).1 = Throw TypeError /\
  element_of (heap (destroyOrphans [0; 1] Sample.loaded_constructor).2) 0 = VNull.
Proof. vm_compute. repeat split. Qed.

Lemma reload_invariant_witness :
  reachable MiniJSON.parse Sample.prototype_chain Sample.loaded /\
  NoDup (nodes Sample.page2) /\
  Forall (names_a_class Sample.prototype_chain Sample.loaded Sample.page2)
    (querySelectorAll_data_cell Sample.page2) /\
  reload MiniJSON.parse Sample.prototype_chain Sample.page2 Sample.loaded
    = (Normal tt, Sample.reloaded) /\
  (forall e, e ∈ querySelectorAll_data_cell Sample.page2 ->
             length (owners Sample.reloaded e) = 1) /\
  (forall l, l ∈ activeCells Sample.reloaded ->
             exists e, element_of (heap Sample.reloaded) l = VElem e /\
                       e ∈ querySelectorAll_data_cell Sample.page2).
Proof.
  assert (NoDup (nodes Sample.page2)) as Hnd.
  { apply (bool_decide_unpack _). vm_compute. reflexivity. }
  assert (Forall (names_a_class Sample.prototype_chain Sample.loaded Sample.page2)
            (querySelectorAll_data_cell Sample.page2)) as Hnames.
  { repeat constructor; eexists; vm_compute; reflexivity. }
  split; [exact loaded_reachable|]. split; [exact Hnd|]. split; [exact Hnames|].
  split; [exact reloaded_completes|].
  exact (reload_invariant MiniJSON.parse Sample.prototype_chain Sample.loaded
           Sample.page2 Sample.reloaded loaded_reachable Hnd Hnames reloaded_completes).
Defined.

Lemma orphan_teardown_witness :
  reachable MiniJSON.parse Sample.prototype_chain Sample.loaded /\
  reload MiniJSON.parse Sample.prototype_chain Sample.page2 Sample.loaded
    = (Normal tt, Sample.reloaded) /\
  0 ∈ activeCells Sample.loaded /\
  (forall e, element_of (heap Sample.loaded) 0 = VElem e ->
             e ∉ querySelectorAll_data_cell Sample.page2) /\
  exists tr,
    trace Sample.reloaded = trace Sample.loaded ++ tr /\
    List.filter (is_EvDestroy_of 0) tr = [EvDestroy 0 VUndefined] /\
    0 ∉ activeCells Sample.reloaded.
Proof.
  assert (0 ∈ activeCells Sample.loaded) as Hin.
  { apply list_elem_of_In. vm_compute. auto. }
  assert (forall e, element_of (heap Sample.loaded) 0 = VElem e ->
                    e ∉ querySelectorAll_data_cell Sample.page2) as Horphan.
  { intros e He. vm_compute in He. injection He as <-.
    intros H. apply list_elem_of_In in H. vm_compute in H.
    destruct H as [H|[H|[]]]; discriminate H. }
  split; [exact loaded_reachable|]. split; [exact reloaded_completes|].
  split; [exact Hin|]. split; [exact Horphan|].
  exact (orphan_teardown MiniJSON.parse Sample.prototype_chain Sample.loaded
           Sample.page2 Sample.reloaded 0
           loaded_reachable reloaded_completes Hin Horphan).
Defined.

Lemma reload_without_markers_witness :
  querySelectorAll_data_cell (Sample.page [(9, (None, None))]) = [] /\
  exists r st',
    reload MiniJSON.parse Sample.prototype_chain (Sample.page [(9, (None, None))])
      Sample.loaded = (r, st') /\
    r = (if forallb (is_cell (heap Sample.loaded)) (activeCells Sample.loaded)
         then Normal tt else Throw TypeError) /\
    (r = Normal tt ->
     activeCells st' = [] /\
     forall l, l ∈ activeCells Sample.loaded -> element_of (heap st') l = VNull) /\
    (r <> Normal tt -> activeCells st' = activeCells Sample.loaded) /\
    availableCells st' = availableCells Sample.loaded /\
    length (heap st') = length (heap Sample.loaded).
Proof.
  split; [reflexivity|].
  exact (reload_without_markers MiniJSON.parse Sample.prototype_chain Sample.loaded
           (Sample.page [(9, (None, None))]) eq_refl).
Defined.

Lemma reload_call_counts_witness :
  reload MiniJSON.parse Sample.prototype_chain Sample.page2 Sample.loaded
    = (Normal tt, Sample.reloaded) /\
  exists tr,
    trace Sample.reloaded = trace Sample.loaded ++ tr /\
    length (constructions tr) = length (querySelectorAll_data_cell Sample.page2) /\
    length (destructions tr) = length (activeCells Sample.loaded) /\
    length (heap Sample.reloaded)
      = length (heap Sample.loaded) + length (querySelectorAll_data_cell Sample.page2) /\
    length (activeCells Sample.reloaded) = length (querySelectorAll_data_cell Sample.page2).
Proof.
  split; [exact reloaded_completes|].
  exact (reload_call_counts MiniJSON.parse Sample.prototype_chain Sample.loaded
           Sample.page2 Sample.reloaded reloaded_completes).
Defined.


(** ** Elements that stay in the page *)

(** C1, on the sample pages.  E2 carries the marker in [page1] and in
    [page2], and the cell 1 is bound to it once [page1] is loaded.  The pass
    over [page2] completes, yet it constructs a new [Bar] for E2 (object 2),
    calls [destroy()] on cell 1, never calls [reload] on it, and does not put
    it in the new [activeCells]: the instance is replaced, not carried
    forward. *)
Theorem persisting_element_is_rebuilt :
  querySelectorAll_data_cell Sample.page1 = [1; 2] /\
  querySelectorAll_data_cell Sample.page2 = [2; 3] /\
  owners Sample.loaded 2 = [1] /\
  reload MiniJSON.parse Sample.prototype_chain Sample.page2 Sample.loaded
    = (Normal tt, Sample.reloaded) /\
  activeCells Sample.reloaded = [2; 3] /\
  owners Sample.reloaded 2 = [2] /\
  element_of (heap Sample.reloaded) 1 = VNull /\
  drop (length (trace Sample.loaded)) (trace Sample.reloaded) =
    [EvNew 2 Sample.Bar (VElem 2); EvNew 3 Sample.Foo (VElem 3);
     EvDestroy 0 VUndefined; EvOnDestroy 0 VNull VUndefined;
     EvDestroy 1 VUndefined] /\
  List.filter (is_EvReload_of 1) (trace Sample.reloaded) = [].
Proof.
  split; [reflexivity|]. split; [reflexivity|].
  split; [vm_compute; reflexivity|].
  split; [exact reloaded_completes|].
  vm_compute. repeat split.
Qed.

(** C2, on the sample pages.  Two passes in a row over the unchanged
    [page2]: the second one completes, but its active cells are new objects
    (4 and 5 instead of 2 and 3); it constructs two instances, calls
    [destroy()] on both cells of the first pass, and calls [reload] on
    none. *)
Theorem second_reload_rebuilds :
  reload MiniJSON.parse Sample.prototype_chain Sample.page2 Sample.reloaded
    = (Normal tt, Sample.reloaded_twice) /\
  activeCells Sample.reloaded = [2; 3] /\
  activeCells Sample.reloaded_twice = [4; 5] /\
  drop (length (trace Sample.reloaded)) (trace Sample.reloaded_twice) =
    [EvNew 4 Sample.Bar (VElem 2); EvNew 5 Sample.Foo (VElem 3);
     EvDestroy 2 VUndefined;
     EvDestroy 3 VUndefined; EvOnDestroy 3 VNull VUndefined] /\
  List.filter is_EvReload (trace Sample.reloaded_twice) = [] /\
  element_of (heap Sample.reloaded_twice) <$> [2; 3] = [VNull; VNull].
Proof.
  split; [apply completed; vm_compute; reflexivity|].
  vm_compute. repeat split.
Qed.

(** ** Invariants of the running page *)

Section Running.

Variable JSON_parse : string -> option json.
Variable prototype_chain : string -> option inherited.

Lemma step_keys_are_names st st' :
  step JSON_parse prototype_chain st st' -> keys_are_names st -> keys_are_names st'.
Proof.
  assert (forall d, keys_are_names st ->
                    keys_are_names (reload JSON_parse prototype_chain d st).2) as Hreload.
  { intros d Hk n c.
    destruct (reload JSON_parse prototype_chain d st) as [r st1] eqn:Hrun. simpl.
    destruct (reload_frame _ _ _ _ _ _ Hrun) as [-> _]. apply Hk. }
  intros [cell|d|d] Hk; [|by apply Hreload..].
  intros n c. rewrite register_eq.
  destruct (truthy _); [apply Hk|].
  destruct (String.eqb (cname cell) "length"); [apply Hk|]. simpl.
  rewrite lookup_insert. case_decide as Hn; [|apply Hk].
  by intros [= <-].
Qed.

Lemma reachable_keys_are_names st :
  reachable JSON_parse prototype_chain st -> keys_are_names st.
Proof.
  unfold reachable. revert st. apply rtc_ind_r.
  - intros n c. unfold initial. simpl. by rewrite lookup_empty.
  - intros st st' _ Hstep IH. by eapply step_keys_are_names.
Qed.

(** X4. After a completed pass the entries of [activeCells] are, in document
    order, one new object per marker element.  For an element that names a
    registered class it is a Cell bound to the element, named by the
    element's [data-cell] attribute, built by the class registered under that
    name, with [params] the parsed [data-cell-params] attribute; for an
    element that names the inherited [Array] it is the Array that holds the
    element. *)
Theorem reload_builds_from_attributes (st : State) (d : Document) (st' : State) :
  reachable JSON_parse prototype_chain st ->
  reload JSON_parse prototype_chain d st = (Normal tt, st') ->
  Forall2 (fun e l =>
             (exists c p,
                lookup_property prototype_chain (availableCells st)
                  (ToString (dataset_cell d e)) = PClass c /\
                dataset_cell d e = Some (cname c) /\
                JSON_parse (ToString (dataset_cellParams d e)) = Some p /\
                after_super c d e p = None /\
                heap st' !! l = Some (OCell {| element := VElem e; name := cname c;
                                               params := p; constructor := c |}))
             \/
             (lookup_property prototype_chain (availableCells st)
                (ToString (dataset_cell d e)) = PArray /\
              heap st' !! l = Some (OArray [VElem e])))
          (querySelectorAll_data_cell d) (activeCells st').
Proof.
  intros Hreach Hrun.
  destruct (reachable_wf _ _ _ Hreach) as [_ Hall].
  pose proof (reachable_keys_are_names _ Hreach) as Hkeys.
  destruct (reload_completes _ _ _ _ _ Hrun) as (os & Hos & _ & -> & _ & -> & _).
  pose proof (Forall2_and_l _ _ _ _ (markers_have_type d) (outcomes_ok _ _ _ _ _ _ Hos))
    as HF.
  apply (new_cells_lookup _ (heap st)) in HF.
  eapply Forall2_impl; [exact HF|]. simpl.
  intros e l (Hle & o & Hl & [s Hs] & Hout).
  assert (foldl cleared (heap st ++ os) (activeCells st) !! l = Some o) as Hl'.
  { rewrite foldl_cleared_lookup_notin; [done|].
    intros Hin. rewrite Forall_forall in Hall. apply Hall in Hin. lia. }
  destruct (outcome_inr _ _ _ _ _ _ Hout) as [(c & p & Hc & Hp & Ha & ->)|[Harr ->]].
  - left. exists c, p. repeat split; try done.
    apply lookup_property_class in Hc. apply Hkeys in Hc.
    rewrite Hs in Hc. simpl in Hc. by rewrite Hc.
  - by right.
Qed.

(** An object that is not active is left alone by one call. *)
Lemma step_inactive st st' l :
  step JSON_parse prototype_chain st st' ->
  l < length (heap st) -> l ∉ activeCells st ->
  l < length (heap st') /\ (l ∉ activeCells st') /\
  heap st' !! l = heap st !! l /\
  List.filter (is_EvDestroy_of l) (trace st')
  = List.filter (is_EvDestroy_of l) (trace st).
Proof.
  intros Hstep Hlt Hnot.
  assert (forall d,
    l < length (heap (reload JSON_parse prototype_chain d st).2) /\
    (l ∉ activeCells (reload JSON_parse prototype_chain d st).2) /\
    heap (reload JSON_parse prototype_chain d st).2 !! l = heap st !! l /\
    List.filter (is_EvDestroy_of l) (trace (reload JSON_parse prototype_chain d st).2)
    = List.filter (is_EvDestroy_of l) (trace st)) as Hreload.
  { intros d. destruct (reload JSON_parse prototype_chain d st) as [r st1] eqn:Hrun.
    destruct (reload_frame _ _ _ _ _ _ Hrun)
      as (_ & os & ds & Hlen & Hsub & Hheap & Htr & Hact).
    assert (l ∉ ds) as Hds by (intros Hin; by apply Hnot, Hsub).
    simpl. split; [lia|]. split; [|split].
    - destruct Hact as [-> | ->]; [done|].
      intros Hin. apply elem_of_seq in Hin. lia.
    - etrans; [exact (Hheap l Hds)|]. by apply lookup_app_l.
    - by rewrite Htr, destroys_filter_notin, app_nil_r. }
  destruct Hstep as [cell|d|d]; [|apply Hreload..].
  destruct (register_frame prototype_chain cell st) as (-> & -> & ->). done.
Qed.

Lemma steps_inactive st st' l :
  rtc (step JSON_parse prototype_chain) st st' ->
  l < length (heap st) -> l ∉ activeCells st ->
  l < length (heap st') /\ (l ∉ activeCells st') /\
  heap st' !! l = heap st !! l /\
  List.filter (is_EvDestroy_of l) (trace st')
  = List.filter (is_EvDestroy_of l) (trace st).
Proof.
  induction 1 as [st|st st1 st2 Hstep _ IH]; intros Hlt Hnot; [done|].
  destruct (step_inactive _ _ _ Hstep Hlt Hnot) as (Hlt1 & Hnot1 & Hh1 & Ht1).
  destruct (IH Hlt1 Hnot1) as (Hlt2 & Hnot2 & Hh2 & Ht2).
  repeat split; [done | done | congruence | congruence].
Qed.

(** X6. An object that is not an active cell never becomes one: whatever is
    called afterwards, it stays out of [activeCells], keeps all its fields
    (a cleared element stays cleared), and [destroy] is not called on it. *)
Theorem inactive_cells_stay_inactive (st st' : State) (l : loc) :
  l < length (heap st) ->
  l ∉ activeCells st ->
  rtc (step JSON_parse prototype_chain) st st' ->
  (l ∉ activeCells st') /\
  heap st' !! l = heap st !! l /\
  List.filter (is_EvDestroy_of l) (trace st')
  = List.filter (is_EvDestroy_of l) (trace st).
Proof.
  intros Hlt Hnot Hsteps.
  by destruct (steps_inactive _ _ _ Hsteps Hlt Hnot) as (_ & ? & ? & ?).
Qed.

Lemma step_no_destroy_ahead st st' :
  wf st -> step JSON_parse prototype_chain st st' ->
  no_destroy_ahead st -> no_destroy_ahead st'.
Proof.
  intros [_ Hall] Hstep Hok. rewrite Forall_forall in Hall.
  assert (forall d, no_destroy_ahead (reload JSON_parse prototype_chain d st).2)
    as Hreload.
  { intros d l. destruct (reload JSON_parse prototype_chain d st) as [r st1] eqn:Hrun.
    destruct (reload_frame _ _ _ _ _ _ Hrun)
      as (_ & os & ds & Hlen & Hsub & _ & Htr & _).
    simpl. intros Hl. rewrite Htr, (Hok l) by lia.
    apply destroys_filter_notin. intros Hin. apply Hsub, Hall in Hin. lia. }
  destruct Hstep as [cell|d|d]; [|apply Hreload..].
  intros l. destruct (register_frame prototype_chain cell st) as (_ & -> & ->).
  apply Hok.
Qed.

Lemma reachable_no_destroy_ahead st :
  reachable JSON_parse prototype_chain st -> no_destroy_ahead st.
Proof.
  unfold reachable. revert st. apply rtc_ind_r.
  - by intros l _.
  - intros st st' Hst Hstep IH. eapply step_no_destroy_ahead; [|exact Hstep|exact IH].
    by apply (reachable_wf JSON_parse prototype_chain).
Qed.

(** Each object that a pass has built is built for an element. *)
Lemma outcomes_objects reg d es os r :
  outcomes JSON_parse prototype_chain reg d es = (os, r) ->
  Forall (fun o => exists e,
            match o with
            | OCell c => element c = VElem e
            | OArray items => items = [VElem e]
            end) os.
Proof.
  intros Hos. destruct (outcomes_built _ _ _ _ _ _ _ Hos) as (es1 & _ & HF).
  clear Hos. induction HF as [|e o es' os' Ho _ IH]; [constructor|].
  constructor; [|exact IH].
  exists e. by destruct (outcome_inr _ _ _ _ _ _ Ho) as [(c & p & _ & _ & _ & ->)|[_ ->]].
Qed.

(** X11. The objects a failing pass has constructed are stranded: each is
    the Cell bound to, or the Array holding, the element it was built for,
    is not an entry of [activeCells], and whatever is called afterwards it
    never becomes one, keeps all its fields, and never has [destroy] called
    on it. *)
Theorem failed_pass_strands_its_cells (st : State) (d : Document) (x : exn)
    (st' : State) (l : loc) :
  reachable JSON_parse prototype_chain st ->
  reload JSON_parse prototype_chain d st = (Throw x, st') ->
  length (heap st) <= l -> l < length (heap st') ->
  (exists e, built_for (heap st') l e) /\
  forall st'', rtc (step JSON_parse prototype_chain) st' st'' ->
    (l ∉ activeCells st'') /\
    heap st'' !! l = heap st' !! l /\
    element_of (heap st'') l = element_of (heap st') l /\
    List.filter (is_EvDestroy_of l) (trace st'') = [].
Proof.
  intros Hreach Hrun Hge Hlt.
  destruct (reachable_wf _ _ _ Hreach) as [_ Hall]. rewrite Forall_forall in Hall.
  pose proof (reachable_no_destroy_ahead _ Hreach l Hge) as Hnone.
  assert (l ∉ activeCells st) as Hnot.
  { intros Hin. apply Hall in Hin. lia. }
  destruct (reload_frame _ _ _ _ _ _ Hrun)
    as (_ & os & ds & Hlen & Hsub & Hheap & Htr & _).
  assert (l ∉ ds) as Hds by (intros Hin; by apply Hnot, Hsub).
  assert (exists os' r', outcomes JSON_parse prototype_chain (availableCells st) d
                           (querySelectorAll_data_cell d) = (os', r') /\
                         heap st' !! l = (heap st ++ os') !! l) as (os' & r' & Hos & Hl).
  { destruct (reload_throws_inv _ _ _ _ _ _ Hrun)
      as (_ & _ & os' & [(Hos & Hh & _)|(Hos & _ & _ & Hh & _)]).
    - exists os', (Some x). split; [done|]. by rewrite Hh.
    - exists os', None. split; [done|]. rewrite Hh.
      apply foldl_cleared_lookup_notin. intros Hin.
      apply cells_before_sub in Hin. by apply Hnot. }
  destruct (reload_throws_inv _ _ _ _ _ _ Hrun) as (Hact & _ & _).
  split.
  - apply outcomes_objects in Hos. rewrite Forall_forall in Hos.
    unfold built_for. rewrite Hl, lookup_app_r by done.
    destruct (os' !! (l - length (heap st))) as [o|] eqn:Eo.
    + destruct (Hos o) as [e He]; [by eapply list_elem_of_lookup_2|].
      exists e. by destruct o.
    + exfalso. apply lookup_ge_None in Eo.
      assert (is_Some (heap st' !! l)) as [o Ho] by (by apply lookup_lt_is_Some_2).
      rewrite Hl, lookup_app_r in Ho by done.
      apply lookup_lt_Some in Ho. lia.
  - intros st'' Hsteps.
    destruct (steps_inactive _ _ l Hsteps) as (_ & Hn & Hh & Ht);
      [done | by rewrite Hact |].
    split; [done|]. split; [exact Hh|]. split.
    + exact (f_equal (fun o : option object =>
                        match o with
                        | Some (OCell c) => element c
                        | Some (OArray _) | None => VUndefined
                        end) Hh).
    + rewrite Ht, Htr, Hnone. by apply destroys_filter_notin.
Qed.

End Running.

Lemma reload_builds_from_attributes_witness :
  reachable MiniJSON.parse Sample.prototype_chain Sample.registered /\
  reload MiniJSON.parse Sample.prototype_chain Sample.page_constructor Sample.registered
    = (Normal tt, Sample.loaded_constructor) /\
  Forall2 (fun e l =>
             (exists c p,
                lookup_property Sample.prototype_chain (availableCells Sample.registered)
                  (ToString (dataset_cell Sample.page_constructor e)) = PClass c /\
                dataset_cell Sample.page_constructor e = Some (cname c) /\
                MiniJSON.parse (ToString (dataset_cellParams Sample.page_constructor e))
                  = Some p /\
                after_super c Sample.page_constructor e p = None /\
                heap Sample.loaded_constructor !! l
                = Some (OCell {| element := VElem e; name := cname c;
                                 params := p; constructor := c |}))
             \/
             (lookup_property Sample.prototype_chain (availableCells Sample.registered)
                (ToString (dataset_cell Sample.page_constructor e)) = PArray /\
              heap Sample.loaded_constructor !! l = Some (OArray [VElem e])))
          (querySelectorAll_data_cell Sample.page_constructor)
          (activeCells Sample.loaded_constructor).
Proof.
  assert (reload MiniJSON.parse Sample.prototype_chain Sample.page_constructor
            Sample.registered = (Normal tt, Sample.loaded_constructor)) as Hrun.
  { apply completed. vm_compute. reflexivity. }
  split; [exact registered_reachable|]. split; [exact Hrun|].
  exact (reload_builds_from_attributes MiniJSON.parse Sample.prototype_chain
           Sample.registered Sample.page_constructor Sample.loaded_constructor
           registered_reachable Hrun).
Defined.

Lemma not_active_0 : 0 ∉ activeCells Sample.reloaded.
Proof.
  intros H. apply list_elem_of_In in H. vm_compute in H.
  destruct H as [H|[H|[]]]; discriminate H.
Qed.

Lemma inactive_cells_stay_inactive_witness :
  0 < length (heap Sample.reloaded) /\
  (0 ∉ activeCells Sample.reloaded) /\
  rtc (step MiniJSON.parse Sample.prototype_chain) Sample.reloaded
    Sample.reloaded_twice /\
  (0 ∉ activeCells Sample.reloaded_twice) /\
  heap Sample.reloaded_twice !! 0 = heap Sample.reloaded !! 0 /\
  List.filter (is_EvDestroy_of 0) (trace Sample.reloaded_twice)
  = List.filter (is_EvDestroy_of 0) (trace Sample.reloaded).
Proof.
  assert (0 < length (heap Sample.reloaded)) as Hlt by (vm_compute; lia).
  assert (rtc (step MiniJSON.parse Sample.prototype_chain) Sample.reloaded
            Sample.reloaded_twice) as Hsteps.
  { apply rtc_once, step_reload. }
  split; [exact Hlt|]. split; [exact not_active_0|]. split; [exact Hsteps|].
  exact (inactive_cells_stay_inactive MiniJSON.parse Sample.prototype_chain
           Sample.reloaded Sample.reloaded_twice 0 Hlt not_active_0 Hsteps).
Defined.

Lemma failed_pass_strands_its_cells_witness :
  let st' := (reload MiniJSON.parse Sample.prototype_chain Sample.page_unknown
                Sample.loaded).2 in
  reachable MiniJSON.parse Sample.prototype_chain Sample.loaded /\
  reload MiniJSON.parse Sample.prototype_chain Sample.page_unknown Sample.loaded
    = (Throw (Error "Cell with name Baz not found"), st') /\
  length (heap Sample.loaded) <= 2 /\ 2 < length (heap st') /\
  (exists e, built_for (heap st') 2 e) /\
  forall st'', rtc (step MiniJSON.parse Sample.prototype_chain) st' st'' ->
    (2 ∉ activeCells st'') /\
    heap st'' !! 2 = heap st' !! 2 /\
    element_of (heap st'') 2 = element_of (heap st') 2 /\
    List.filter (is_EvDestroy_of 2) (trace st'') = [].
Proof.
  intros st'.
  assert (reload MiniJSON.parse Sample.prototype_chain Sample.page_unknown
            Sample.loaded
          = (Throw (Error "Cell with name Baz not found"), st')) as Hrun.
  { apply thrown. vm_compute. reflexivity. }
  assert (length (heap Sample.loaded) <= 2) as Hge by (vm_compute; lia).
  assert (2 < length (heap st')) as Hlt by (vm_compute; lia).
  split; [exact loaded_reachable|]. split; [exact Hrun|].
  split; [exact Hge|]. split; [exact Hlt|].
  exact (failed_pass_strands_its_cells MiniJSON.parse Sample.prototype_chain
           Sample.loaded Sample.page_unknown _ st' 2 loaded_reachable Hrun Hge Hlt).
Defined.

(** ** Cell.reload and the queries *)

(** X12. [reload(arg)] returns [arg] and never binds an element: the heap is
    left as it is, so a live cell keeps its element even when [arg] is another
    one, and a cell on which [destroy()] has been called stays without
    element.  It calls [onReload(arg)] once when the class defines the hook
    and nothing when it does not. *)
Theorem reload_binds_nothing (st : State) (this : loc) (arg : value) :
  (exists st',
     Cell_reload this arg st = (Normal arg, st') /\
     heap st' = heap st /\
     activeCells st' = activeCells st /\
     availableCells st' = availableCells st /\
     trace st' = trace st ++
       EvReload this arg ::
       (if has_hook onReload (heap st) this then [EvOnReload this arg] else [])) /\
  forall c, heap st !! this = Some (OCell c) ->
    element_of (heap (Cell_reload this arg (Cell_destroy this VUndefined st).2).2) this
    = VNull.
Proof.
  split.
  - rewrite Cell_reload_eq. eexists. by split.
  - intros c Hc. rewrite Cell_reload_eq, Cell_destroy_eq. simpl.
    by eapply element_of_cleared.
Qed.

Section QueryProperties.

Variable JSON_parse : string -> option json.
Variable prototype_chain : string -> option inherited.
Variable querySelector : elem -> string -> option elem.
Variable querySelectorAll : elem -> string -> list elem.

(** X13. On a live cell [query] and [queryAll] return what the element's
    [querySelector] and [querySelectorAll] return; once [destroy] has been
    called on the cell, both throw a TypeError for every selector. *)
Theorem queries_need_the_element (st : State) (this : loc) (c : Cell) (e : elem)
    (arg : value) (selector : string) :
  heap st !! this = Some (OCell c) ->
  element c = VElem e ->
  Cell_query querySelector (heap st) this selector
    = Returned (querySelector e selector) /\
  Cell_queryAll querySelectorAll (heap st) this selector
    = Returned (querySelectorAll e selector) /\
  Cell_query querySelector (heap (Cell_destroy this arg st).2) this selector
    = Thrown TypeError /\
  Cell_queryAll querySelectorAll (heap (Cell_destroy this arg st).2) this selector
    = Thrown TypeError.
Proof.
  intros Hc He. unfold Cell_query, Cell_queryAll.
  rewrite Cell_destroy_eq. simpl.
  rewrite (element_of_cleared _ _ _ Hc).
  unfold element_of. by rewrite Hc, He.
Qed.

(** X14. After a completed pass, [query] and [queryAll] throw a TypeError on
    every cell that was active before it, also on the cells whose element is
    still in the page. *)
Theorem queries_throw_on_old_cells (st : State) (d : Document) (st' : State)
    (l : loc) (selector : string) :
  reachable JSON_parse prototype_chain st ->
  reload JSON_parse prototype_chain d st = (Normal tt, st') ->
  l ∈ activeCells st ->
  Cell_query querySelector (heap st') l selector = Thrown TypeError /\
  Cell_queryAll querySelectorAll (heap st') l selector = Thrown TypeError.
Proof.
  intros Hreach Hrun Hl.
  destruct (reload_destroys_every_cell JSON_parse prototype_chain st d st' l
              (reachable_wf _ _ _ Hreach) Hrun Hl) as (_ & _ & _ & _ & Hnull).
  unfold Cell_query, Cell_queryAll. by rewrite Hnull.
Qed.


End QueryProperties.

Lemma queries_need_the_element_witness :
  heap Sample.loaded !! 0 = Some (OCell Sample.foo1) /\
  element Sample.foo1 = VElem 1 /\
  Cell_query Sample.querySelector (heap Sample.loaded) 0 ".Foo__name"
    = Returned (Sample.querySelector 1 ".Foo__name") /\
  Cell_queryAll Sample.querySelectorAll (heap Sample.loaded) 0 ".Foo__name"
    = Returned (Sample.querySelectorAll 1 ".Foo__name") /\
  Cell_query Sample.querySelector
    (heap (Cell_destroy 0 VUndefined Sample.loaded).2) 0 ".Foo__name"
    = Thrown TypeError /\
  Cell_queryAll Sample.querySelectorAll
    (heap (Cell_destroy 0 VUndefined Sample.loaded).2) 0 ".Foo__name"
    = Thrown TypeError.
Proof.
  assert (heap Sample.loaded !! 0 = Some (OCell Sample.foo1)) as Hc
    by (vm_compute; reflexivity).
  split; [exact Hc|]. split; [reflexivity|].
  exact (queries_need_the_element Sample.querySelector Sample.querySelectorAll
           Sample.loaded 0 Sample.foo1 1 VUndefined ".Foo__name" Hc eq_refl).
Defined.

Lemma queries_throw_on_old_cells_witness :
  reachable MiniJSON.parse Sample.prototype_chain Sample.loaded /\
  reload MiniJSON.parse Sample.prototype_chain Sample.page2 Sample.loaded
    = (Normal tt, Sample.reloaded) /\
  1 ∈ activeCells Sample.loaded /\
  Cell_query Sample.querySelector (heap Sample.reloaded) 1 ".Bar__name"
    = Thrown TypeError /\
  Cell_queryAll Sample.querySelectorAll (heap Sample.reloaded) 1 ".Bar__name"
    = Thrown TypeError.
Proof.
  assert (1 ∈ activeCells Sample.loaded) as Hin.
  { apply list_elem_of_In. vm_compute. auto. }
  split; [exact loaded_reachable|]. split; [exact reloaded_completes|].
  split; [exact Hin|].
  exact (queries_throw_on_old_cells MiniJSON.parse Sample.prototype_chain
           Sample.querySelector Sample.querySelectorAll Sample.loaded Sample.page2
           Sample.reloaded 1 ".Bar__name" loaded_reachable reloaded_completes Hin).
Defined.


(** On [page_example]: E8 has the child and is built, E10 has not and the
    pass throws at it. *)
Example Example_sample :
  let st := (register Sample.prototype_chain Example initial).2 in
  (Cell_new MiniJSON.parse Sample.page_example Example 8 st).1 = Normal 0 /\
  (Cell_new MiniJSON.parse Sample.page_example Example 10 st).1 = Throw TypeError /\
  (reload MiniJSON.parse Sample.prototype_chain Sample.page_example st).1
    = Throw TypeError.
Proof. vm_compute. repeat split. Qed.

(** ** Class names *)

Lemma append_cons a s t : String a s +:+ t = String a (s +:+ t).
Proof. reflexivity. Qed.

Lemma append_assoc (a b c : string) : (a +:+ b) +:+ c = a +:+ (b +:+ c).
Proof.
  induction a as [|x a IH]; [reflexivity|].
  rewrite !append_cons. by rewrite IH.
Qed.

Lemma append_length (a b : string) :
  String.length (a +:+ b) = String.length a + String.length b.
Proof.
  induction a as [|x a IH]; [reflexivity|].
  rewrite append_cons. simpl. by rewrite IH.
Qed.

(** X15. For one cell, [className] gives different selectors for different
    non-empty children, and none of them is the bare name that
    [className()] returns. *)
Theorem className_distinguishes_children (this : Cell) (a b : string) :
  a <> EmptyString -> b <> EmptyString ->
  (Cell_className this (Some a) = Cell_className this (Some b) <-> a = b) /\
  Cell_className this (Some a) <> Cell_className this None /\
  Cell_className this (Some a) = "." +:+ name this +:+ "__" +:+ a.
Proof.
  intros Ha Hb.
  assert (forall c, c <> EmptyString ->
            Cell_className this (Some c) = "." +:+ name this +:+ "__" +:+ c) as Hsome.
  { intros [|x c] Hc; [done|reflexivity]. }
  rewrite !Hsome by done. split; [|split; [|done]].
  - split; [|by intros ->].
    intros H. by do 3 apply (inj (String.append _)) in H.
  - simpl. intros H. apply (f_equal String.length) in H.
    rewrite !append_length in H. simpl in H. lia.
Qed.

Lemma className_distinguishes_children_witness :
  "name" <> EmptyString /\ "title" <> EmptyString /\
  (Cell_className Sample.foo1 (Some "name") = Cell_className Sample.foo1 (Some "title")
   <-> "name" = "title") /\
  Cell_className Sample.foo1 (Some "name") <> Cell_className Sample.foo1 None /\
  Cell_className Sample.foo1 (Some "name") = "." +:+ name Sample.foo1 +:+ "__" +:+ "name".
Proof.
  assert ("name" <> EmptyString) as Ha by discriminate.
  assert ("title" <> EmptyString) as Hb by discriminate.
  split; [exact Ha|]. split; [exact Hb|].
  exact (className_distinguishes_children Sample.foo1 "name" "title" Ha Hb).
Defined.

(** X16. The namespaces of two cells overlap when the name of one extends
    the name of the other by [__]: the child [c1__c2] of a cell named [n]
    and the child [c2] of a cell named [n__c1] get the same selector. *)
Theorem className_namespaces_overlap (this1 this2 : Cell) (c1 c2 : string) :
  c2 <> EmptyString ->
  name this2 = name this1 +:+ "__" +:+ c1 ->
  Cell_className this1 (Some (c1 +:+ "__" +:+ c2)) = Cell_className this2 (Some c2).
Proof.
  intros Hc2 Hname.
  assert (forall c, c <> EmptyString ->
            forall this, Cell_className this (Some c)
                         = "." +:+ name this +:+ "__" +:+ c) as Hsome.
  { intros [|x c] Hc this; [done|reflexivity]. }
  rewrite (Hsome c2 Hc2), Hsome, Hname.
  - by rewrite !append_assoc.
  - by destruct c1.
Qed.

Lemma className_namespaces_overlap_witness :
  "name" <> EmptyString /\
  name (mkCell (VElem 2) "Foo__list" JNull Sample.Bar)
    = name Sample.foo1 +:+ "__" +:+ "list" /\
  Cell_className Sample.foo1 (Some ("list" +:+ "__" +:+ "name"))
  = Cell_className (mkCell (VElem 2) "Foo__list" JNull Sample.Bar) (Some "name").
Proof.
  assert ("name" <> EmptyString) as Hc by discriminate.
  split; [exact Hc|]. split; [reflexivity|].
  exact (className_namespaces_overlap Sample.foo1
           (mkCell (VElem 2) "Foo__list" JNull Sample.Bar) "list" "name" Hc eq_refl).
Defined.

(** ** Phoenix.Cell: the name of a cell module *)

Lemma split_dot_free s : dot_free s = true -> Phoenix_Cell.split s = [s].
Proof.
  induction s as [|c s IH]; [done|]. simpl.
  destruct (Ascii.eqb c "."); [done|]. simpl. intros Hs. by rewrite (IH Hs).
Qed.

Lemma split_with_dot s :
  dot_free s = false -> exists p q qs, Phoenix_Cell.split s = p :: q :: qs.
Proof.
  induction s as [|c s IH]; [done|]. simpl.
  destruct (Ascii.eqb c ".") eqn:Ec; simpl.
  - intros _. destruct (Phoenix_Cell.split s) as [|q qs] eqn:Es.
    + by destruct s as [|c' s']; [|simpl in Es; destruct (Ascii.eqb c' ".");
                                    [|destruct (Phoenix_Cell.split s')]].
    + by exists EmptyString, q, qs.
  - intros Hs. destruct (IH Hs) as (p & q & qs & ->). by eexists _, _, _.
Qed.

Lemma split_nonempty s : Phoenix_Cell.split s <> [].
Proof.
  destruct s as [|c s]; [done|]. simpl.
  destruct (Ascii.eqb c "."); [done|]. by destruct (Phoenix_Cell.split s).
Qed.

(** [name] by cases on the first character. *)
Lemma name_cons c s :
  Phoenix_Cell.name (String c s) =
  if Ascii.eqb c "." then Phoenix_Cell.name s
  else if dot_free s then String c s else Phoenix_Cell.name s.
Proof.
  unfold Phoenix_Cell.name. cbn [Phoenix_Cell.split].
  destruct (Ascii.eqb c ".") eqn:Ec.
  - pose proof (split_nonempty s) as Hne.
    by destruct (Phoenix_Cell.split s).
  - destruct (dot_free s) eqn:Hs.
    + by rewrite (split_dot_free _ Hs).
    + by destruct (split_with_dot _ Hs) as (p & q & qs & ->).
Qed.

(** X17. The name of a cell module never contains a dot, and its class names
    are that name, [__] and the class name given. *)
Theorem name_has_no_dot (module class_name : string) :
  dot_free (Phoenix_Cell.name module) = true /\
  exists prefix, module = prefix +:+ Phoenix_Cell.name module /\
                 Phoenix_Cell.class module class_name
                 = Phoenix_Cell.name module +:+ "__" +:+ class_name.
Proof.
  split.
  - induction module as [|c s IH]; [done|]. rewrite name_cons.
    destruct (Ascii.eqb c ".") eqn:Ec; [exact IH|].
    destruct (dot_free s) eqn:Hs; [|exact IH]. simpl. by rewrite Ec, Hs.
  - assert (exists prefix, module = prefix +:+ Phoenix_Cell.name module) as [p Hp].
    { induction module as [|c s [p IH]]; [by exists EmptyString|]. rewrite name_cons.
      destruct (Ascii.eqb c ".") eqn:Ec.
      - exists (String c p). rewrite append_cons. by rewrite <- IH.
      - destruct (dot_free s).
        + by exists EmptyString.
        + exists (String c p). rewrite append_cons. by rewrite <- IH. }
    by exists p.
Qed.

(** X18. The name of a cell module is what follows the last dot of the
    module's full name, and the full name itself when it has no dot. *)
Theorem name_is_last_segment (prefix s : string) :
  dot_free s = true ->
  Phoenix_Cell.name (prefix +:+ "." +:+ s) = s /\
  Phoenix_Cell.name s = s.
Proof.
  intros Hs.
  assert (Phoenix_Cell.name s = s) as Hself.
  { unfold Phoenix_Cell.name. by rewrite (split_dot_free _ Hs). }
  split; [|exact Hself].
  induction prefix as [|c p IH].
  - change (EmptyString +:+ "." +:+ s) with (String "." s).
    by rewrite name_cons.
  - rewrite append_cons, name_cons, IH.
    destruct (Ascii.eqb c "."); [done|].
    destruct (dot_free (p +:+ "." +:+ s)) eqn:Hfree; [|done].
    exfalso. clear IH. induction p as [|c' p IHp].
    + change (EmptyString +:+ "." +:+ s) with (String "." s) in Hfree. done.
    + rewrite append_cons in Hfree. simpl in Hfree.
      apply andb_true_iff in Hfree as [_ Hfree]. by apply IHp.
Qed.

Lemma name_is_last_segment_witness :
  dot_free "Example" = true /\
  Phoenix_Cell.name ("Elixir.PhoenixCellsPoc" +:+ "." +:+ "Example") = "Example" /\
  Phoenix_Cell.name "Example" = "Example".
Proof.
  split; [reflexivity|].
  exact (name_is_last_segment "Elixir.PhoenixCellsPoc" "Example" eq_refl).
Defined.

(** X19. The client and the server agree: for a cell whose [name] is the
    name of the server module, [className(child)] is a dot followed by the
    module's [class(child)], and [className()] is the module's name. *)
Theorem className_matches_server_class (this : Cell) (module child : string) :
  name this = Phoenix_Cell.name module ->
  child <> EmptyString ->
  Cell_className this (Some child) = "." +:+ Phoenix_Cell.class module child /\
  Cell_className this None = Phoenix_Cell.name module.
Proof.
  intros Hname Hchild. unfold Phoenix_Cell.class. rewrite <- Hname.
  split; [|reflexivity]. by destruct child.
Qed.

Lemma className_matches_server_class_witness :
  name Sample.foo1 = Phoenix_Cell.name "Elixir.PhoenixCellsPoc.Foo" /\
  "name" <> EmptyString /\
  Cell_className Sample.foo1 (Some "name")
    = "." +:+ Phoenix_Cell.class "Elixir.PhoenixCellsPoc.Foo" "name" /\
  Cell_className Sample.foo1 None = Phoenix_Cell.name "Elixir.PhoenixCellsPoc.Foo".
Proof.
  assert (name Sample.foo1 = Phoenix_Cell.name "Elixir.PhoenixCellsPoc.Foo") as Hn
    by (vm_compute; reflexivity).
  assert ("name" <> EmptyString) as Hc by discriminate.
  split; [exact Hn|]. split; [exact Hc|].
  exact (className_matches_server_class Sample.foo1 "Elixir.PhoenixCellsPoc.Foo" "name"
           Hn Hc).
Defined.
